(** * plugin-typescript: companion [@types] dependencies and tsconfig references

    A shallow embedding of [packages/plugin-typescript/sources/index.ts]:
    the identity derivation [getTypesName], the two dependency hooks
    [afterWorkspaceDependencyAddition] / [afterWorkspaceDependencyRemoval]
    and the [afterAllInstalled] reference synchronizer.

    Conventions of the embedding
    - a project is the list [project.workspaces]; a workspace object is
      denoted by its position in that list, so that object identity
      ([===]) is equality of positions and in-place mutation of a
      workspace is an update of the list at that position;
    - [identHash] and [descriptorHash] are taken collision-free: a hash
      is represented by the value it is computed from;
    - asynchronous calls are sequential ([await] everywhere), so a hook is
      a state transformer that additionally records the resolver queries
      it performs and may terminate by an exception. *)

From Stdlib Require Import NArith.
From stdpp Require Import base option list gmap strings pretty.

(** ** Data model *)

(** [structUtils.makeIdent(scope, name)]: [scope] is [string | null]. *)
Record Ident := makeIdent { scope : option string; name : string }.

(** [structUtils.makeDescriptor(ident, range)].  A descriptor carries the
    fields of its ident; [descriptor.scope] is [scope (ident descriptor)]. *)
Record Descriptor := makeDescriptor { ident : Ident; range : string }.

(** A resolution candidate; only [reference] is read by the plugin. *)
Record Package := makePackage { pkg_ident : Ident; reference : string }.

(** The result of [semver.coerce]. *)
Record SemVer := makeSemVer { major : N; minor : N; patch : N }.

#[global] Instance Ident_eq_dec : EqDecision Ident.
Proof. solve_decision. Defined.

#[global] Instance Ident_countable : Countable Ident.
Proof.
  refine (inj_countable' (λ i, (scope i, name i))
                         (λ p, makeIdent p.1 p.2) _).
  by intros [].
Defined.

#[global] Instance Descriptor_eq_dec : EqDecision Descriptor.
Proof. solve_decision. Defined.

Abbreviation IdentHash := Ident (only parsing).
Abbreviation DescriptorHash := Descriptor (only parsing).

Definition identHash (i : Ident) : IdentHash := i.
Definition descriptorHash (d : Descriptor) : DescriptorHash := d.

Module Manifest.

Inductive AllDependencies :=
| Dependencies
| DevDependencies
| PeerDependencies
| OptionalDependencies.

#[global] Instance AllDependencies_eq_dec : EqDecision AllDependencies.
Proof. solve_decision. Defined.

(** The dependency collections of a manifest, [Map<IdentHash, Descriptor>]. *)
Record t := make {
  dependencies : gmap Ident Descriptor;
  devDependencies : gmap Ident Descriptor;
  peerDependencies : gmap Ident Descriptor;
  optionalDependencies : gmap Ident Descriptor;
}.

(** Modelled from the spec: [Manifest.allDependencies] is declared in
    [@yarnpkg/core], outside the plugin; the specification lists the
    dependency-collection kinds as regular, development, peer and
    optional. *)
Definition allDependencies : list AllDependencies :=
  [Dependencies; DevDependencies; PeerDependencies; OptionalDependencies].

(** [manifest[type]] *)
Definition get (m : t) (type : AllDependencies) : gmap Ident Descriptor :=
  match type with
  | Dependencies => dependencies m
  | DevDependencies => devDependencies m
  | PeerDependencies => peerDependencies m
  | OptionalDependencies => optionalDependencies m
  end.

(** In-place update of [manifest[type]]. *)
Definition update (type : AllDependencies)
    (f : gmap Ident Descriptor → gmap Ident Descriptor) (m : t) : t :=
  match type with
  | Dependencies =>
      make (f (dependencies m)) (devDependencies m) (peerDependencies m) (optionalDependencies m)
  | DevDependencies =>
      make (dependencies m) (f (devDependencies m)) (peerDependencies m) (optionalDependencies m)
  | PeerDependencies =>
      make (dependencies m) (devDependencies m) (f (peerDependencies m)) (optionalDependencies m)
  | OptionalDependencies =>
      make (dependencies m) (devDependencies m) (peerDependencies m) (f (optionalDependencies m))
  end.

Definition empty : t := make ∅ ∅ ∅ ∅.

End Manifest.

Module Workspace.

(** [dependencies] is the workspace's resolved dependency map in its
    iteration order; the hooks below never write it. *)
Record t := make {
  cwd : string;
  manifest : Manifest.t;
  dependencies : list (IdentHash * Descriptor);
}.

Definition with_manifest (f : Manifest.t → Manifest.t) (w : t) : t :=
  make (cwd w) (f (manifest w)) (dependencies w).

End Workspace.

(** [project.workspaces]; a workspace is referred to by its position. *)
Abbreviation Project := (list Workspace.t) (only parsing).

Module Target.
(** Modelled from the spec: [suggestUtils.Target] is declared in
    [@yarnpkg/plugin-essentials]; [DEVELOPMENT] names the development
    dependency collection. *)
Definition REGULAR := Manifest.Dependencies.
Definition DEVELOPMENT := Manifest.DevDependencies.
Definition PEER := Manifest.PeerDependencies.
End Target.

Module Modifier.
(** Modelled from the spec: [suggestUtils.Modifier.CARET] is the caret
    range prefix. *)
Definition CARET : string := "^".
End Modifier.

(** ** Identity derivation *)

(** JavaScript truthiness of a [string | null]. *)
Definition truthy (s : option string) : bool :=
  match s with
  | Some s => negb (String.eqb s "")
  | None => false
  end.

Definition getTypesName (descriptor : Descriptor) : string :=
  if truthy (scope (ident descriptor))
  then default "" (scope (ident descriptor)) +:+ "__" +:+ name (ident descriptor)
  else name (ident descriptor).

(** ** Hooks as state transformers *)

Inductive Error :=
| ResolverFailure   (* the resolver rejected the query *)
| TypeError         (* a property of [undefined] was read *)
| StorageFailure.   (* the file system rejected a write *)

Inductive Outcome (A : Type) :=
| Returns (a : A)
| Throws (e : Error).
Arguments Returns {A} a.
Arguments Throws {A} e.

(** What one invocation of a hook amounts to: how it ended, the
    workspaces as it left them, and the resolver queries it issued, oldest
    first. *)
Record Run (A : Type) := mkRun {
  outcome : Outcome A;
  final : list Workspace.t;
  queries : list Descriptor;
}.
Arguments mkRun {A} outcome final queries.
Arguments outcome {A} r.
Arguments final {A} r.
Arguments queries {A} r.

Definition Hook (A : Type) : Type := list Workspace.t → Run A.

#[global] Instance Hook_ret : MRet Hook :=
  λ A a project, mkRun (Returns a) project [].

#[global] Instance Hook_bind : MBind Hook :=
  λ A B k m project,
    let r := m project in
    match outcome r with
    | Returns a =>
        let r' := k a (final r) in
        mkRun (outcome r') (final r') (queries r ++ queries r')
    | Throws e => mkRun (Throws e) (final r) (queries r)
    end.

Definition throw {A} (e : Error) : Hook A :=
  λ project, mkRun (Throws e) project [].

(** [try { m } catch { }]: the exception is swallowed, the effects that
    preceded it stay. *)
Definition tryCatch {A} (m : Hook A) : Hook (option A) :=
  λ project,
    let r := m project in
    match outcome r with
    | Returns a => mkRun (Returns (Some a)) (final r) (queries r)
    | Throws _ => mkRun (Returns None) (final r) (queries r)
    end.

Definition getProject : Hook (list Workspace.t) :=
  λ project, mkRun (Returns project) project [].

(** [workspace.manifest[type].set(key, value)] on the workspace at
    position [workspace]. *)
Definition manifestSet (workspace : nat) (type : Manifest.AllDependencies)
    (key : IdentHash) (value : Descriptor) : Hook unit :=
  λ project,
    mkRun (Returns tt)
          (alter (Workspace.with_manifest (Manifest.update type (insert key value))) workspace project)
          [].

(** [workspace.manifest[type].delete(key)] *)
Definition manifestDelete (workspace : nat) (type : Manifest.AllDependencies)
    (key : IdentHash) : Hook unit :=
  λ project,
    mkRun (Returns tt)
          (alter (Workspace.with_manifest (Manifest.update type (delete key))) workspace project)
          [].

(** [for (const x of l) body(x)] *)
Fixpoint forEach {A} (l : list A) (body : A → Hook unit) : Hook unit :=
  match l with
  | [] => mret tt
  | x :: rest => body x ≫= λ _, forEach rest body
  end.

(** [candidates[0]], whose [reference] is then read: a [TypeError] when
    the array is empty. *)
Definition first {A} (l : list A) : Hook A :=
  match l with
  | x :: _ => mret x
  | [] => throw TypeError
  end.

(** Modelled from the spec: [miscUtils.mapAndFind] is declared in
    [@yarnpkg/core], outside the plugin.  The scan of the local workspaces
    (section 4.2, step 5) is a search: as the name of the helper, its
    [skip] marker and the use of its result at lines 82-85 (one answer of
    the callback, or [undefined]) say, it answers with the first result of
    the callback that is not [skip] ([None] here). *)
Fixpoint mapAndFind {A B} (iterable : list A) (cb : A → option B) : option B :=
  match iterable with
  | [] => None
  | value :: rest =>
      match cb value with
      | Some result => Some result
      | None => mapAndFind rest cb
      end
  end.

(** The result of [structUtils.parseRange]; only [selector] is read. *)
Record Range := makeRange { selector : string }.

(** ** The dependency hooks *)

Section Hooks.

(** External collaborators of the plugin. *)

(** [hasDefinitelyTyped(descriptor, configuration)] *)
Variable hasDefinitelyTyped : Descriptor → bool.
(** [structUtils.parseRange] *)
Variable parseRange : string → Range.
(** [semver.validRange], read as a boolean *)
Variable validRange : string → bool.
(** [semver.coerce]; [None] is [null] *)
Variable coerce : string → option SemVer.
(** [resolver.getCandidates(descriptor, new Map(), resolveOptions)];
    [None] is a rejected promise *)
Variable resolver : Descriptor → option (list Package).

Definition getCandidates (descriptor : Descriptor) : Hook (list Package) :=
  λ project,
    mkRun (match resolver descriptor with
           | Some candidates => Returns candidates
           | None => Throws ResolverFailure
           end)
          project [descriptor].

(** Lines 43-48: the selector the companion range is computed from. *)
Definition selectRange (descriptor : Descriptor) : Hook string :=
  let selected := selector (parseRange (range descriptor)) in
  (* If the range is a tag, we have to resolve it into a semver version *)
  if negb (validRange selected) then
    originalCandidates ← getCandidates descriptor;
    candidate ← first originalCandidates;
    mret (selector (parseRange (reference candidate)))
  else
    mret selected.

(** Lines 65-73: the companion entries a workspace holds, one per
    dependency kind, in the order of [Manifest.allDependencies]. *)
Definition atTypesDependenciesOf (atTypesIdent : IdentHash) (workspace : Workspace.t)
    : list (Manifest.AllDependencies * Descriptor) :=
  omap (λ type,
          match Manifest.get (Workspace.manifest workspace) type !! atTypesIdent with
          | None => None
          | Some atTypesDependency => Some (type, atTypesDependency)
          end)
       Manifest.allDependencies.

(** Lines 58-63: the workspace depends on the original package by the
    very same descriptor, in its regular or its development collection. *)
Definition dependsOnSame (descriptor : Descriptor) (workspace : Workspace.t) : bool :=
  let regularDependencyHash :=
    descriptorHash <$> Manifest.dependencies (Workspace.manifest workspace) !! identHash (ident descriptor) in
  let devDependencyHash :=
    descriptorHash <$> Manifest.devDependencies (Workspace.manifest workspace) !! identHash (ident descriptor) in
  negb (bool_decide (regularDependencyHash ≠ Some (descriptorHash descriptor))
        && bool_decide (devDependencyHash ≠ Some (descriptorHash descriptor))).

(** Lines 57-80: the callback given to [mapAndFind]. *)
Definition suggestion (descriptor atTypesDescriptor : Descriptor) (workspace : Workspace.t)
    : option (list (Manifest.AllDependencies * Descriptor)) :=
  (* We only want workspaces that depend the exact same range as the original package *)
  if negb (dependsOnSame descriptor workspace) then None
  else
    let atTypesDependencies :=
      atTypesDependenciesOf (identHash (ident atTypesDescriptor)) workspace in
    (* We only want workspaces that also depend on the appropriate @types package *)
    if (length atTypesDependencies =? 0)%nat then None
    else Some atTypesDependencies.

(** Lines 17-99.  [workspace] is the position of the triggering
    workspace in [project.workspaces]; the [strategies] argument, which
    the hook never reads, is left out. *)
Definition afterWorkspaceDependencyAddition
    (workspace : nat) (dependencyTarget : Manifest.AllDependencies)
    (descriptor : Descriptor) : Hook unit :=
  if bool_decide (scope (ident descriptor) = Some "types") then mret tt
  else
    let requiresInstallTypes := hasDefinitelyTyped descriptor in
    if negb requiresInstallTypes then mret tt
    else
      let typesName := getTypesName descriptor in
      selected ← selectRange descriptor;
      match coerce selected with
      | None => mret tt
      | Some semverRange =>
          let coercedRange := Modifier.CARET +:+ pretty (major semverRange) in
          let atTypesDescriptor :=
            makeDescriptor (makeIdent (Some "types") typesName) coercedRange in
          project ← getProject;
          match mapAndFind project (suggestion descriptor atTypesDescriptor) with
          | Some projectSuggestions =>
              forEach projectSuggestions
                (λ '(dependencyType, atTypesDescriptor),
                   manifestSet workspace dependencyType
                               (identHash (ident atTypesDescriptor)) atTypesDescriptor)
          | None =>
              (* Return if the atTypes descriptor can't be resolved *)
              probe ← tryCatch (getCandidates atTypesDescriptor);
              match probe with
              | None => mret tt
              | Some atTypesCandidates =>
                  if (length atTypesCandidates =? 0)%nat then mret tt
                  else
                    manifestSet workspace Target.DEVELOPMENT
                                (identHash (ident atTypesDescriptor)) atTypesDescriptor
              end
          end
      end.

(** Lines 101-121. *)
Definition afterWorkspaceDependencyRemoval
    (workspace : nat) (dependencyTarget : Manifest.AllDependencies)
    (descriptor : Descriptor) : Hook unit :=
  if bool_decide (scope (ident descriptor) = Some "types") then mret tt
  else
    let typesName := getTypesName descriptor in
    let ident := makeIdent (Some "types") typesName in
    forEach Manifest.allDependencies
      (λ type,
         project ← getProject;
         let current :=
           w ← project !! workspace;
           Manifest.get (Workspace.manifest w) type !! identHash ident in
         match current with
         | None => mret tt
         | Some _ => manifestDelete workspace type (identHash ident)
         end).

End Hooks.

(** ** The reference synchronizer *)

(** An entry of the [references] array of a [tsconfig.json]. *)
Record Reference := makeReference { path : string }.

(** A parsed [tsconfig.json]: the optional [references] array, and the
    other top-level members, which the plugin never reads (kept as raw
    member name / value pairs). *)
Record TsConfig := makeTsConfig {
  references : option (list Reference);
  members : list (string * string);
}.

(** What a path holds on disk; a missing file is a path outside the map. *)
Inductive File :=
| Unparsable
| Json (tsconfig : TsConfig).

(** One pass of the synchronizer, or one iteration of it: how it ended,
    the disk as it left it, and the paths it wrote, oldest first. *)
Record Sync := mkSync {
  sync_outcome : Outcome unit;
  disk : gmap string File;
  written : list string;
}.

(** [xfs.readJsonPromise]; [None] is a rejected promise (missing file or
    malformed content). *)
Definition readJsonPromise (files : gmap string File) (p : string) : option TsConfig :=
  match files !! p with
  | Some (Json tsconfig) => Some tsconfig
  | _ => None
  end.

(** Lines 158-183: from the relative paths of the referenced workspaces
    and the outcome of the read, the [configChanged] flag and the
    document to persist. *)
Definition reconcileReferences (referencedWorkspaces : list string) (read : option TsConfig)
    : bool * TsConfig :=
  let '(configChanged, tsconfig) :=
    match read with
    | Some tsconfig => (false, tsconfig)
    | None => (true, makeTsConfig None [])
    end in
  if (length referencedWorkspaces =? 0)%nat then
    match references tsconfig with
    | Some _ => (true, makeTsConfig None (members tsconfig))
    | None => (configChanged, tsconfig)
    end
  else
    let oldReferences : gset string :=
      list_to_set (path <$> default [] (references tsconfig)) in
    let '(configChanged, newReferences) :=
      foldl (λ '(configChanged, newReferences) relativePath,
               (if bool_decide (relativePath ∉ oldReferences) then true else configChanged,
                newReferences ++ [makeReference relativePath]))
            (configChanged, @nil Reference) referencedWorkspaces in
    (configChanged, makeTsConfig (Some newReferences) (members tsconfig)).

Section Synchronizer.

(** External collaborators of the synchronizer. *)

(** [structUtils.isVirtualDescriptor], [structUtils.devirtualizeDescriptor] *)
Variable isVirtualDescriptor : Descriptor → bool.
Variable devirtualizeDescriptor : Descriptor → Descriptor.
(** [project.tryWorkspaceByIdent]; [None] is [null], [Some j] the
    workspace at position [j] *)
Variable tryWorkspaceByIdent : list Workspace.t → Ident → option nat.
(** [workspace.accepts(range)] *)
Variable accepts : Workspace.t → string → bool.
(** [ppath.relative], [ppath.join] *)
Variable relative : string → string → string.
Variable join : string → string → string.
(** Whether [xfs.writeJsonPromise] succeeds on a path. *)
Variable writable : string → bool.

Definition tryWorkspaceByDescriptor (project : list Workspace.t) (descriptor : Descriptor)
    : option (nat * Workspace.t) :=
  let descriptor :=
    if isVirtualDescriptor descriptor then devirtualizeDescriptor descriptor
    else descriptor in
  match tryWorkspaceByIdent project (ident descriptor) with
  | None => None
  | Some j =>
      match project !! j with
      | None => None
      | Some workspace =>
          if negb (accepts workspace (range descriptor)) then None
          else Some (j, workspace)
      end
  end.

(** Lines 150-156; [miscUtils.mapAndFilter] is [omap]. *)
Definition referencedWorkspaces (project : list Workspace.t) (i : nat)
    (workspace : Workspace.t) : list string :=
  omap (λ '(identHash, descriptor),
          match tryWorkspaceByDescriptor project descriptor with
          | None => None
          | Some (j, dependingWorkspace) =>
              if bool_decide (j = i) then None
              else Some (relative (Workspace.cwd workspace) (Workspace.cwd dependingWorkspace))
          end)
       (Workspace.dependencies workspace).

Definition tsconfigPath (workspace : Workspace.t) : string :=
  join (Workspace.cwd workspace) "tsconfig.json".

(** The body of the loop, for the workspace at position [i]. *)
Definition syncWorkspace (project : list Workspace.t) (i : nat) (workspace : Workspace.t)
    (files : gmap string File) : Sync :=
  let '(configChanged, tsconfig) :=
    reconcileReferences (referencedWorkspaces project i workspace)
                        (readJsonPromise files (tsconfigPath workspace)) in
  if configChanged then
    if writable (tsconfigPath workspace)
    then mkSync (Returns tt)
                (<[tsconfigPath workspace := Json tsconfig]> files)
                [tsconfigPath workspace]
    else mkSync (Throws StorageFailure) files []
  else mkSync (Returns tt) files [].

(** [for (const workspace of project.workspaces)], from position [i] on. *)
Fixpoint syncFrom (project : list Workspace.t) (i : nat) (rest : list Workspace.t)
    (files : gmap string File) : Sync :=
  match rest with
  | [] => mkSync (Returns tt) files []
  | workspace :: rest =>
      let r := syncWorkspace project i workspace files in
      match sync_outcome r with
      | Returns _ =>
          let r' := syncFrom project (S i) rest (disk r) in
          mkSync (sync_outcome r') (disk r') (written r ++ written r')
      | Throws e => r
      end
  end.

Definition afterAllInstalled (project : list Workspace.t) (files : gmap string File) : Sync :=
  syncFrom project 0 project files.

End Synchronizer.

(** ** The publish manifest adjuster *)

Section Packing.

(** The raw manifest is typed [any]: the values of its members are left
    abstract, with what the hook needs of them. *)
Variable Value : Type.
(** JavaScript truthiness of a value. *)
Variable truthyValue : Value → bool.
(** [value[key]]; [None] is [undefined]. *)
Variable member : Value → string → option Value.

(** Truthiness of a member that may be [undefined]. *)
Definition truthyMember (v : option Value) : bool :=
  match v with
  | Some v => truthyValue v
  | None => false
  end.

(** [rawManifest.publishConfig[key]], as read once the guard
    [rawManifest.publishConfig && ...] has found [publishConfig] truthy. *)
Definition publishConfigMember (rawManifest : gmap string Value) (key : string)
    : option Value :=
  rawManifest !! "publishConfig" ≫= λ publishConfig, member publishConfig key.

(** The guard [rawManifest.publishConfig && rawManifest.publishConfig[key]],
    read as a boolean. *)
Definition overrides (rawManifest : gmap string Value) (key : string) : bool :=
  truthyMember (rawManifest !! "publishConfig")
  && truthyMember (publishConfigMember rawManifest key).

(** [if (rawManifest.publishConfig && rawManifest.publishConfig[key])
       rawManifest[key] = rawManifest.publishConfig[key]] *)
Definition promote (key : string) (rawManifest : gmap string Value) : gmap string Value :=
  if truthyMember (rawManifest !! "publishConfig")
     && truthyMember (publishConfigMember rawManifest key)
  then
    match publishConfigMember rawManifest key with
    | Some value => <[key := value]> rawManifest
    | None => rawManifest   (* not reached: the member is truthy *)
    end
  else rawManifest.

(** Lines 123-130; the [workspace] argument is not read. *)
Definition beforeWorkspacePacking (workspace : nat) (rawManifest : gmap string Value)
    : gmap string Value :=
  let rawManifest := promote "typings" rawManifest in
  promote "types" rawManifest.

End Packing.

(** ** Notions used in the statements *)

(** The companion identity of a descriptor: [makeIdent(`types`, typesName)]. *)
Definition atTypesIdent (descriptor : Descriptor) : Ident :=
  makeIdent (Some "types") (getTypesName descriptor).

(** The freshly computed companion descriptor for a coerced version. *)
Definition freshAtTypesDescriptor (descriptor : Descriptor) (version : SemVer) : Descriptor :=
  makeDescriptor (atTypesIdent descriptor) (Modifier.CARET +:+ pretty (major version)).

(** The effect of lines 83-85 on the manifest of the triggering workspace. *)
Definition applySuggestions (projectSuggestions : list (Manifest.AllDependencies * Descriptor))
    (m : Manifest.t) : Manifest.t :=
  foldl (λ m '(dependencyType, atTypesDescriptor),
           Manifest.update dependencyType
             (insert (identHash (ident atTypesDescriptor)) atTypesDescriptor) m)
        m projectSuggestions.

(** Every entry of a dependency collection sits under the hash of its own
    identity, as [Map<IdentHash, Descriptor>] is populated everywhere. *)
Definition keyed (m : Manifest.t) : Prop :=
  ∀ type k e, Manifest.get m type !! k = Some e → identHash (ident e) = k.

(** A workspace holds a companion entry under some dependency kind. *)
Definition holdsAtTypes (atTypes : IdentHash) (workspace : Workspace.t) : Prop :=
  ∃ type e, Manifest.get (Workspace.manifest workspace) type !! atTypes = Some e.

(** What lines 57-98 amount to once the companion descriptor is known:
    propagation from the scan's answer, else the probe and the insertion
    into the development collection. *)
Definition settle (resolver : Descriptor → option (list Package)) (workspace : nat)
    (descriptor atTypesDescriptor : Descriptor) (project : list Workspace.t) : Run unit :=
  match mapAndFind project (suggestion descriptor atTypesDescriptor) with
  | Some projectSuggestions =>
      mkRun (Returns tt)
            (alter (Workspace.with_manifest (applySuggestions projectSuggestions)) workspace project)
            []
  | None =>
      match resolver atTypesDescriptor with
      | Some (_ :: _) =>
          mkRun (Returns tt)
                (alter (Workspace.with_manifest
                          (Manifest.update Target.DEVELOPMENT
                             (insert (identHash (ident atTypesDescriptor)) atTypesDescriptor)))
                       workspace project)
                [atTypesDescriptor]
      | _ => mkRun (Returns tt) project [atTypesDescriptor]
      end
  end.

(** The criterion of section 4.4, step 4: the iteration for a workspace
    persists its document exactly when the computed paths and the paths
    of the existing reference list differ as sets. *)
Definition persistedIffSetsDiffer (referenced : list string) (tsconfig : TsConfig)
    (r : Sync) : Prop :=
  written r ≠ []
  ↔ (list_to_set referenced : gset string)
    ≠ list_to_set (path <$> default [] (references tsconfig)).

(** The effect of the removal loop on a manifest, for the kinds visited. *)
Definition shed (k : IdentHash) (types : list Manifest.AllDependencies) (m : Manifest.t)
    : Manifest.t :=
  foldl (λ m type, Manifest.update type (delete k) m) m types.

(** [s] holds its companion entries under the companion's own hash. *)
Definition companionKeyed (atTypes : IdentHash) (s : Workspace.t) : Prop :=
  ∀ type e, Manifest.get (Workspace.manifest s) type !! atTypes = Some e →
            identHash (ident e) = atTypes.

(** A stand-in sibling that holds the companion descriptor in its
    development collection and nothing else. *)
Definition developmentOnly (atD : Descriptor) : Workspace.t :=
  Workspace.make "" (Manifest.make ∅ {[identHash (ident atD) := atD]} ∅ ∅) [].

(** ** Stand-ins for the external collaborators, used in the examples *)

Module Demo.

Definition hasDefinitelyTyped (d : Descriptor) : bool := true.

Definition parseRange (r : string) : Range := makeRange r.

Definition validRange (s : string) : bool :=
  negb (bool_decide (s ∈ ["latest"; "next"; "beta"])).

Definition coerce (s : string) : option SemVer :=
  if bool_decide (s = "^2.0.0") then Some (makeSemVer 2 0 0)
  else if bool_decide (s = "4.2.1") then Some (makeSemVer 4 2 1)
  else if bool_decide (s = "^1.5") then Some (makeSemVer 1 5 0)
  else None.

Definition foo : Ident := makeIdent None "foo".
Definition typesFoo : Ident := makeIdent (Some "types") "foo".

(** A registry that knows [foo@latest] (resolving to 4.2.1) and the
    companions [@types/foo@^2] and [@types/foo@^4]; it rejects
    [foo@next] and has nothing for [foo@beta]. *)
Definition resolver (d : Descriptor) : option (list Package) :=
  if bool_decide (d = makeDescriptor foo "latest") then Some [makePackage foo "4.2.1"]
  else if bool_decide (d = makeDescriptor foo "next") then None
  else if bool_decide (d = makeDescriptor typesFoo "^2") then Some [makePackage typesFoo "2.0.3"]
  else if bool_decide (d = makeDescriptor typesFoo "^4") then Some [makePackage typesFoo "4.0.1"]
  else Some [].

Definition addition :=
  afterWorkspaceDependencyAddition hasDefinitelyTyped parseRange validRange coerce resolver.

(** A workspace whose manifest has the given regular and development
    collections. *)
Definition workspace (cwd : string) (regular dev : list (Ident * Descriptor)) : Workspace.t :=
  Workspace.make cwd (Manifest.make (list_to_map regular) (list_to_map dev) ∅ ∅) [].

Definition fooAt (r : string) : Ident * Descriptor := (foo, makeDescriptor foo r).
Definition typesFooAt (r : string) : Ident * Descriptor := (typesFoo, makeDescriptor typesFoo r).

(** The file-system side: every workspace accepts every range, paths are
    joined with a slash, a relative path is the target directory. *)
Definition isVirtualDescriptor (d : Descriptor) : bool := false.
Definition devirtualizeDescriptor (d : Descriptor) : Descriptor := d.
Definition accepts (w : Workspace.t) (r : string) : bool := true.
Definition relative (from to : string) : string := "../" +:+ to.
Definition join (dir file : string) : string := dir +:+ "/" +:+ file.
Definition writable (p : string) : bool := true.

(** Workspaces are looked up by the name of the package they are in. *)
Definition tryWorkspaceByIdent (project : list Workspace.t) (i : Ident) : option nat :=
  fst <$> list_find (λ w, Workspace.cwd w = name i) project.

Definition sync :=
  afterAllInstalled isVirtualDescriptor devirtualizeDescriptor tryWorkspaceByIdent
                    accepts relative join writable.

Definition syncOne :=
  syncWorkspace isVirtualDescriptor devirtualizeDescriptor tryWorkspaceByIdent
                accepts relative join writable.

Definition dependsOn (n : string) : IdentHash * Descriptor :=
  (makeIdent None n, makeDescriptor (makeIdent None n) "workspace:*").

Definition package (cwd : string) (deps : list string) : Workspace.t :=
  Workspace.make cwd Manifest.empty (dependsOn <$> deps).

End Demo.

(** Workspaces and packages of the examples. *)
Module Scenario.

Import Demo.

Definition fooCaret2 : Descriptor := makeDescriptor foo "^2.0.0".
Definition fooLatest : Descriptor := makeDescriptor foo "latest".

(** [a] has just received [foo@^2.0.0]; its sibling [b] depends on the
    same descriptor and has [@types/foo@^1.5] as a development
    dependency; [c] does so too, with [@types/foo@^2] and a peer entry. *)
Definition a : Workspace.t := workspace "a" [fooAt "^2.0.0"] [].
Definition b : Workspace.t := workspace "b" [fooAt "^2.0.0"] [typesFooAt "^1.5"].
Definition c : Workspace.t :=
  Workspace.make "c"
    (Manifest.make (list_to_map [fooAt "^2.0.0"]) (list_to_map [typesFooAt "^2"])
                   (list_to_map [typesFooAt "*"]) ∅) [].

Definition lone : Workspace.t :=
  Workspace.make "a"
    (Manifest.update Manifest.Dependencies (insert foo fooCaret2) Manifest.empty) [].

(** Three packages; [a] depends on [b]. *)
Definition packages : list Workspace.t :=
  [package "a" ["b"]; package "b" []; package "c" []].

Definition ref (p : string) : Reference := makeReference p.

End Scenario.

(** A small value type for raw manifests: strings and objects. *)
Module DemoPacking.

Inductive value :=
| Str (s : string)
| Obj (members : list (string * string)).

Definition truthyValue (v : value) : bool :=
  match v with
  | Str s => negb (String.eqb s "")
  | Obj _ => true
  end.

Definition member (v : value) (key : string) : option value :=
  match v with
  | Str _ => None
  | Obj members => Str <$> (list_to_map members : gmap string string) !! key
  end.

Definition pack := beforeWorkspacePacking value truthyValue member 0.

End DemoPacking.

(** ** Sanity checks of the embedding *)

Example getTypesName_scoped :
  getTypesName (makeDescriptor (makeIdent (Some "babel") "core") "^7.0.0") = "babel__core".
Proof. reflexivity. Qed.

Example getTypesName_unscoped :
  getTypesName (makeDescriptor (makeIdent None "lodash") "^4.17.0") = "lodash".
Proof. reflexivity. Qed.

(** [foo@^2.0.0] added to a lone workspace: the probe of [@types/foo@^2]
    succeeds and the companion lands in the development collection. *)
Example addition_fresh :
  let project := [Demo.workspace "a" [Demo.fooAt "^2.0.0"] []] in
  Demo.addition 0 Target.REGULAR (makeDescriptor Demo.foo "^2.0.0") project
  = mkRun (Returns tt)
          [Demo.workspace "a" [Demo.fooAt "^2.0.0"] [Demo.typesFooAt "^2"]]
          [makeDescriptor Demo.typesFoo "^2"].
Proof. vm_compute. reflexivity. Qed.

(** ** Manifests and workspaces *)

Lemma manifest_get_update_eq type f m :
  Manifest.get (Manifest.update type f m) type = f (Manifest.get m type).
Proof. by destruct type. Qed.

Lemma manifest_get_update_ne type type' f m :
  type ≠ type' → Manifest.get (Manifest.update type f m) type' = Manifest.get m type'.
Proof. by destruct type, type'. Qed.

Lemma manifest_ext m m' :
  (∀ type, Manifest.get m type = Manifest.get m' type) → m = m'.
Proof.
  intros H. destruct m, m'.
  pose proof (H Manifest.Dependencies).
  pose proof (H Manifest.DevDependencies).
  pose proof (H Manifest.PeerDependencies).
  pose proof (H Manifest.OptionalDependencies).
  simpl in *. congruence.
Qed.

Lemma with_manifest_same f w :
  f (Workspace.manifest w) = Workspace.manifest w → Workspace.with_manifest f w = w.
Proof. destruct w. unfold Workspace.with_manifest. simpl. by intros ->. Qed.

Lemma with_manifest_compose f g w :
  Workspace.with_manifest g (Workspace.with_manifest f w) = Workspace.with_manifest (g ∘ f) w.
Proof. done. Qed.

Lemma alter_with_manifest_twice f g i (project : list Workspace.t) :
  alter (Workspace.with_manifest g) i (alter (Workspace.with_manifest f) i project)
  = alter (Workspace.with_manifest (g ∘ f)) i project.
Proof. rewrite list_alter_alter_eq. by apply list_alter_ext. Qed.

(** ** Running the monadic pieces *)

Lemma forEach_manifestSet (l : list (Manifest.AllDependencies * Descriptor)) i project :
  forEach l (λ '(dependencyType, atTypesDescriptor),
               manifestSet i dependencyType (identHash (ident atTypesDescriptor)) atTypesDescriptor)
          project
  = mkRun (Returns tt) (alter (Workspace.with_manifest (applySuggestions l)) i project) [].
Proof.
  revert project. induction l as [|[type d] l IH]; intros project.
  - simpl. unfold mret, Hook_ret. f_equal.
    symmetry. apply list_alter_id. intros w. by apply with_manifest_same.
  - simpl. unfold mbind, Hook_bind. simpl. rewrite IH. simpl.
    by rewrite alter_with_manifest_twice.
Qed.

Lemma mapAndFind_app {A B} (l1 l2 : list A) (cb : A → option B) :
  mapAndFind (l1 ++ l2) cb
  = match mapAndFind l1 cb with
    | Some r => Some r
    | None => mapAndFind l2 cb
    end.
Proof. induction l1 as [|x l1 IH]; simpl; [done|]. by destruct (cb x). Qed.

Lemma mapAndFind_None {A B} (l : list A) (cb : A → option B) :
  mapAndFind l cb = None ↔ Forall (λ x, cb x = None) l.
Proof.
  induction l as [|x l IH]; simpl.
  - split; [constructor | done].
  - destruct (cb x) eqn:E.
    + split; [done|]. intros H. inversion H; congruence.
    + rewrite IH. split; [by constructor | by inversion 1].
Qed.

(** The scan answers with the result of the first workspace the callback
    does not skip. *)
Lemma mapAndFind_first {A B} (pre post : list A) (x : A) (cb : A → option B) r :
  Forall (λ y, cb y = None) pre → cb x = Some r →
  mapAndFind (pre ++ x :: post) cb = Some r.
Proof.
  intros Hpre Hx. rewrite mapAndFind_app.
  apply mapAndFind_None in Hpre. rewrite Hpre. simpl. by rewrite Hx.
Qed.

Lemma mapAndFind_Some {A B} (l : list A) (cb : A → option B) r :
  mapAndFind l cb = Some r →
  ∃ pre x post, l = pre ++ x :: post ∧ Forall (λ y, cb y = None) pre ∧ cb x = Some r.
Proof.
  induction l as [|x l IH]; simpl; [done|].
  destruct (cb x) eqn:E.
  - intros [= ->]. by exists [], x, l.
  - intros (pre & y & post & -> & Hpre & Hy)%IH.
    exists (x :: pre), y, post. split_and!; [done | by constructor | done].
Qed.

(** ** The addition hook, step by step *)

Section AdditionFacts.

Variable hasDefinitelyTyped : Descriptor → bool.
Variable parseRange : string → Range.
Variable validRange : string → bool.
Variable coerce : string → option SemVer.
Variable resolver : Descriptor → option (list Package).

Local Abbreviation select := (selectRange parseRange validRange resolver).
Local Abbreviation addition :=
  (afterWorkspaceDependencyAddition hasDefinitelyTyped parseRange validRange coerce resolver).

(** The selection never touches the workspaces, and neither its outcome
    nor its queries depend on them. *)
Lemma selectRange_final d project : final (select d project) = project.
Proof.
  unfold selectRange. destruct (validRange _); simpl; [done|].
  unfold mbind, Hook_bind, getCandidates. simpl.
  destruct (resolver d) as [[|c cs]|]; done.
Qed.

Lemma selectRange_indep d project project' :
  outcome (select d project) = outcome (select d project')
  ∧ queries (select d project) = queries (select d project').
Proof.
  unfold selectRange. destruct (validRange _); simpl; [done|].
  unfold mbind, Hook_bind, getCandidates. simpl.
  destruct (resolver d) as [[|c cs]|]; done.
Qed.

Lemma selectRange_valid d project :
  validRange (selector (parseRange (range d))) = true →
  select d project = mkRun (Returns (selector (parseRange (range d)))) project [].
Proof. unfold selectRange. by intros ->. Qed.

Lemma selectRange_tag d project c cs :
  validRange (selector (parseRange (range d))) = false →
  resolver d = Some (c :: cs) →
  select d project
  = mkRun (Returns (selector (parseRange (reference c)))) project [d].
Proof.
  unfold selectRange. intros -> Hr. simpl.
  unfold mbind, Hook_bind, getCandidates. simpl. by rewrite Hr.
Qed.

Lemma selectRange_rejected d project :
  validRange (selector (parseRange (range d))) = false →
  resolver d = None →
  select d project = mkRun (Throws ResolverFailure) project [d].
Proof.
  unfold selectRange. intros -> Hr. simpl.
  unfold mbind, Hook_bind, getCandidates. simpl. by rewrite Hr.
Qed.

Lemma selectRange_no_candidate d project :
  validRange (selector (parseRange (range d))) = false →
  resolver d = Some [] →
  select d project = mkRun (Throws TypeError) project [d].
Proof.
  unfold selectRange. intros -> Hr. simpl.
  unfold mbind, Hook_bind, getCandidates. simpl. by rewrite Hr.
Qed.

(** Past the two guards, with a selector that coerces, the hook is the
    selection followed by [settle] on the fresh companion descriptor. *)
Lemma addition_settles i target d project selected version :
  scope (ident d) ≠ Some "types" →
  hasDefinitelyTyped d = true →
  outcome (select d project) = Returns selected →
  coerce selected = Some version →
  addition i target d project
  = let s := settle resolver i d (freshAtTypesDescriptor d version) project in
    mkRun (Returns tt) (final s) (queries (select d project) ++ queries s).
Proof.
  intros Hscope Hdt Hsel Hco.
  unfold afterWorkspaceDependencyAddition.
  rewrite bool_decide_eq_false_2 by done. rewrite Hdt. simpl.
  unfold mbind at 1. unfold Hook_bind at 1.
  rewrite Hsel, selectRange_final, Hco. simpl.
  unfold mbind, Hook_bind, getProject. simpl.
  unfold settle, freshAtTypesDescriptor, atTypesIdent.
  destruct (mapAndFind project _) as [l|] eqn:Hscan.
  - rewrite forEach_manifestSet. simpl. done.
  - unfold tryCatch, getCandidates. simpl.
    destruct (resolver _) as [[|c cs]|]; simpl; done.
Qed.

(** In every other case the hook leaves the workspaces as they are. *)
Lemma addition_cases i target d project :
  final (addition i target d project) = project
  ∨ ∃ selected version,
      scope (ident d) ≠ Some "types"
      ∧ hasDefinitelyTyped d = true
      ∧ outcome (select d project) = Returns selected
      ∧ coerce selected = Some version.
Proof.
  unfold afterWorkspaceDependencyAddition.
  case_bool_decide as Hscope; [by left|].
  destruct (hasDefinitelyTyped d) eqn:Hdt; [|by left]. simpl.
  unfold mbind at 1. unfold Hook_bind at 1.
  destruct (outcome (select d project)) as [selected|e] eqn:Hsel.
  - rewrite selectRange_final.
    destruct (coerce selected) as [version|] eqn:Hco.
    + right. by exists selected, version.
    + by left.
  - left. simpl. apply selectRange_final.
Qed.

End AdditionFacts.

(** ** Companion entries of a workspace *)

Section Companions.

Variable atTypes : IdentHash.

Local Abbreviation entries := (atTypesDependenciesOf atTypes).

Lemma entries_elem w type e :
  (type, e) ∈ entries w ↔ Manifest.get (Workspace.manifest w) type !! atTypes = Some e.
Proof.
  unfold atTypesDependenciesOf, Manifest.allDependencies. simpl.
  destruct (Manifest.dependencies _ !! _) eqn:E1,
           (Manifest.devDependencies _ !! _) eqn:E2,
           (Manifest.peerDependencies _ !! _) eqn:E3,
           (Manifest.optionalDependencies _ !! _) eqn:E4;
    simpl; rewrite ?elem_of_cons, ?elem_of_nil;
    destruct type; simpl; rewrite ?E1, ?E2, ?E3, ?E4;
    intuition congruence.
Qed.

Lemma entries_nil w :
  entries w = [] ↔ ∀ type, Manifest.get (Workspace.manifest w) type !! atTypes = None.
Proof.
  split.
  - intros Hnil type. destruct (_ !! _) as [e|] eqn:E; [|done].
    apply entries_elem in E. rewrite Hnil in E. by apply elem_of_nil in E.
  - intros Hnone. destruct (entries w) as [|[type e] l] eqn:E; [done|].
    assert ((type, e) ∈ entries w) as H by (rewrite E; left).
    apply entries_elem in H. by rewrite Hnone in H.
Qed.

(** The companion entries are determined by the four lookups. *)
Lemma entries_ext w w' :
  (∀ type, Manifest.get (Workspace.manifest w) type !! atTypes
           = Manifest.get (Workspace.manifest w') type !! atTypes) →
  entries w = entries w'.
Proof.
  intros H. unfold atTypesDependenciesOf, Manifest.allDependencies. simpl.
  pose proof (H Manifest.Dependencies) as H1.
  pose proof (H Manifest.DevDependencies) as H2.
  pose proof (H Manifest.PeerDependencies) as H3.
  pose proof (H Manifest.OptionalDependencies) as H4.
  simpl in *. by rewrite H1, H2, H3, H4.
Qed.

(** Copying the companion entries of [s]: each collection of the
    receiving manifest gains the entry [s] holds under that kind, and is
    otherwise untouched. *)
Lemma get_applySuggestions s m type :
  Manifest.get (applySuggestions (entries s) m) type
  = match Manifest.get (Workspace.manifest s) type !! atTypes with
    | Some e => <[identHash (ident e) := e]> (Manifest.get m type)
    | None => Manifest.get m type
    end.
Proof.
  unfold atTypesDependenciesOf, Manifest.allDependencies, applySuggestions. simpl.
  destruct (Manifest.dependencies _ !! _) eqn:E1,
           (Manifest.devDependencies _ !! _) eqn:E2,
           (Manifest.peerDependencies _ !! _) eqn:E3,
           (Manifest.optionalDependencies _ !! _) eqn:E4;
    simpl; destruct type; simpl; rewrite ?E1, ?E2, ?E3, ?E4; done.
Qed.

Lemma applySuggestions_idemp s m :
  applySuggestions (entries s) (applySuggestions (entries s) m)
  = applySuggestions (entries s) m.
Proof.
  apply manifest_ext. intros type. rewrite !get_applySuggestions.
  destruct (_ !! _); [|done]. apply insert_insert_eq.
Qed.

Lemma keyed_companionKeyed s : keyed (Workspace.manifest s) → companionKeyed atTypes s.
Proof. intros H type e. apply H. Qed.

Lemma lookup_applySuggestions_companion s m type :
  companionKeyed atTypes s →
  Manifest.get (applySuggestions (entries s) m) type !! atTypes
  = match Manifest.get (Workspace.manifest s) type !! atTypes with
    | Some e => Some e
    | None => Manifest.get m type !! atTypes
    end.
Proof.
  intros Hk. rewrite get_applySuggestions.
  destruct (Manifest.get (Workspace.manifest s) type !! atTypes) as [e|] eqn:E; [|done].
  rewrite (Hk _ _ E). apply lookup_insert_eq.
Qed.

Lemma lookup_applySuggestions_other s m type k :
  companionKeyed atTypes s → k ≠ atTypes →
  Manifest.get (applySuggestions (entries s) m) type !! k = Manifest.get m type !! k.
Proof.
  intros Hk Hne. rewrite get_applySuggestions.
  destruct (Manifest.get (Workspace.manifest s) type !! atTypes) as [e|] eqn:E; [|done].
  rewrite (Hk _ _ E). by apply lookup_insert_ne.
Qed.

(** A workspace that receives the entries of [s], and held companion
    entries under no kind [s] lacks, now holds exactly those of [s]. *)
Lemma entries_received s w :
  companionKeyed atTypes s →
  (∀ type, Manifest.get (Workspace.manifest s) type !! atTypes = None →
           Manifest.get (Workspace.manifest w) type !! atTypes = None) →
  entries (Workspace.with_manifest (applySuggestions (entries s)) w) = entries s.
Proof.
  intros Hk Hsub. apply entries_ext. intros type. simpl.
  rewrite lookup_applySuggestions_companion by done.
  destruct (Manifest.get (Workspace.manifest s) type !! atTypes) eqn:E; [done|].
  by apply Hsub.
Qed.

Lemma dependsOnSame_received d s w :
  companionKeyed atTypes s → identHash (ident d) ≠ atTypes →
  dependsOnSame d (Workspace.with_manifest (applySuggestions (entries s)) w)
  = dependsOnSame d w.
Proof.
  intros Hk Hne. unfold dependsOnSame. simpl.
  pose proof (lookup_applySuggestions_other s (Workspace.manifest w)
                Manifest.Dependencies _ Hk Hne) as H1.
  pose proof (lookup_applySuggestions_other s (Workspace.manifest w)
                Manifest.DevDependencies _ Hk Hne) as H2.
  simpl in H1, H2. by rewrite H1, H2.
Qed.

End Companions.

Lemma suggestion_Some d atD w l :
  suggestion d atD w = Some l
  ↔ dependsOnSame d w = true ∧ l = atTypesDependenciesOf (identHash (ident atD)) w ∧ l ≠ [].
Proof.
  unfold suggestion. destruct (dependsOnSame d w); simpl.
  - destruct (atTypesDependenciesOf _ w) as [|x xs]; simpl;
      (split; [intros ?; by simplify_eq | intros (_ & ? & ?); by simplify_eq]).
  - split; [done | by intros [? _]].
Qed.

Lemma suggestion_None d atD w :
  suggestion d atD w = None
  ↔ dependsOnSame d w = false ∨ atTypesDependenciesOf (identHash (ident atD)) w = [].
Proof.
  unfold suggestion. destruct (dependsOnSame d w); simpl.
  - destruct (atTypesDependenciesOf _ w) as [|x xs]; simpl;
      (split; [intros ?; by (right + simplify_eq) | by intros [?|?]]).
  - split; [by left | done].
Qed.

(** ** Scanning again after the triggering workspace was updated *)

Section Rescan.

Variable resolver : Descriptor → option (list Package).
Variables d atD : Descriptor.
Hypothesis original_is_not_companion : identHash (ident d) ≠ identHash (ident atD).

Local Abbreviation atTypes := (identHash (ident atD)).
Local Abbreviation entries := (atTypesDependenciesOf (identHash (ident atD))).
Local Abbreviation devOnly := (developmentOnly atD).
Local Abbreviation receive s := (Workspace.with_manifest (applySuggestions (entries s))).

Lemma suggestion_received s w :
  companionKeyed atTypes s → entries s ≠ [] →
  dependsOnSame d w = true →
  entries w = [] ∨ entries w = entries s →
  suggestion d atD (receive s w) = Some (entries s).
Proof.
  intros Hk Hs Hw Hsub. apply suggestion_Some.
  rewrite dependsOnSame_received by done.
  rewrite entries_received; [done..|].
  intros type Hnone. destruct Hsub as [Hnil|Heq].
  - by apply entries_nil.
  - destruct (Manifest.get (Workspace.manifest w) type !! atTypes) as [e|] eqn:E; [|done].
    apply entries_elem in E. rewrite Heq in E. apply entries_elem in E. congruence.
Qed.

Lemma suggestion_received_skip s w :
  companionKeyed atTypes s →
  dependsOnSame d w = false →
  suggestion d atD (receive s w) = None.
Proof.
  intros Hk Hw. apply suggestion_None. left. by rewrite dependsOnSame_received.
Qed.

(** The workspace reached by the scan answers as before or with the
    entries it has just received. *)
Lemma suggestion_after s w :
  companionKeyed atTypes s → entries s ≠ [] →
  suggestion d atD w = None ∨ suggestion d atD w = Some (entries s) →
  suggestion d atD (receive s w) = suggestion d atD w
  ∨ suggestion d atD (receive s w) = Some (entries s).
Proof.
  intros Hk Hs [Hw|Hw].
  - destruct (dependsOnSame d w) eqn:Hsame.
    + right. apply suggestion_received; [done..|].
      apply suggestion_None in Hw as [?|?]; [congruence | by left].
    + left. rewrite Hw. by apply suggestion_received_skip.
  - right. apply suggestion_Some in Hw as (Hsame & Heq & _).
    apply suggestion_received; [done..|]. by right.
Qed.

Lemma rescan_found s i project :
  companionKeyed atTypes s → entries s ≠ [] →
  mapAndFind project (suggestion d atD) = Some (entries s) →
  mapAndFind (alter (receive s) i project) (suggestion d atD) = Some (entries s).
Proof.
  intros Hk Hs. revert i. induction project as [|x rest IH]; intros i; [done|].
  destruct i as [|i]; simpl.
  - destruct (suggestion d atD x) as [r|] eqn:Hx.
    + intros [= ->].
      destruct (suggestion_after s x Hk Hs) as [-> | ->]; [by right | by rewrite Hx | done].
    + intros Hrest.
      destruct (suggestion_after s x Hk Hs) as [-> | ->]; [by left | by rewrite Hx | done].
  - destruct (suggestion d atD x) as [r|]; [done|]. apply IH.
Qed.

Lemma rescan_missed s i project :
  companionKeyed atTypes s → entries s ≠ [] →
  mapAndFind project (suggestion d atD) = None →
  mapAndFind (alter (receive s) i project) (suggestion d atD) = None
  ∨ mapAndFind (alter (receive s) i project) (suggestion d atD) = Some (entries s).
Proof.
  intros Hk Hs. revert i. induction project as [|x rest IH]; intros i; [by left|].
  destruct i as [|i]; simpl.
  - destruct (suggestion d atD x) as [r|] eqn:Hx; [done|]. intros Hrest.
    destruct (suggestion_after s x Hk Hs) as [-> | ->];
      [by left | rewrite Hx, Hrest; by left | by right].
  - destruct (suggestion d atD x) as [r|]; [done|]. apply IH.
Qed.

Lemma entries_developmentOnly : entries devOnly = [(Target.DEVELOPMENT, atD)].
Proof.
  unfold atTypesDependenciesOf, Manifest.allDependencies, devOnly. simpl.
  by rewrite lookup_empty, lookup_singleton_eq.
Qed.

Lemma developmentOnly_keyed : companionKeyed atTypes devOnly.
Proof.
  intros type e H. apply entries_elem in H.
  rewrite entries_developmentOnly in H. apply list_elem_of_singleton in H. congruence.
Qed.

(** Settling twice is settling once. *)
Lemma settle_idemp i project :
  Forall (λ w, keyed (Workspace.manifest w)) project →
  final (settle resolver i d atD (final (settle resolver i d atD project)))
  = final (settle resolver i d atD project).
Proof.
  intros Hkeyed. unfold settle at 2 3.
  destruct (mapAndFind project (suggestion d atD)) as [l|] eqn:Hscan.
  - apply mapAndFind_Some in Hscan as Hfirst.
    destruct Hfirst as (pre & s & post & -> & _ & Hs).
    apply suggestion_Some in Hs as (_ & -> & Hne).
    assert (companionKeyed atTypes s) as Hk.
    { apply keyed_companionKeyed.
      rewrite Forall_app, Forall_cons in Hkeyed. by destruct Hkeyed as (_ & ? & _). }
    simpl. unfold settle. rewrite rescan_found by done. simpl.
    rewrite alter_with_manifest_twice. apply list_alter_ext; [|done].
    intros w _. unfold Workspace.with_manifest. simpl.
    by rewrite applySuggestions_idemp.
  - destruct (resolver atD) as [[|c cs]|] eqn:Hprobe; simpl.
    + unfold settle. by rewrite Hscan, Hprobe.
    + pose proof entries_developmentOnly as Hdev.
      assert (entries devOnly ≠ []) as Hne by (by rewrite Hdev).
      assert (∀ m, Manifest.update Target.DEVELOPMENT (insert atTypes atD) m
                   = applySuggestions (entries devOnly) m) as Hsame
        by (intros m; by rewrite Hdev).
      replace (alter _ i project) with (alter (receive devOnly) i project)
        by (apply list_alter_ext; [|done]; intros w _;
            unfold Workspace.with_manifest; by rewrite Hsame).
      unfold settle.
      destruct (rescan_missed devOnly i project developmentOnly_keyed Hne Hscan)
        as [-> | ->]; [rewrite Hprobe|]; simpl.
      * replace (alter _ i (alter _ i project))
          with (alter (receive devOnly) i (alter (receive devOnly) i project))
          by (apply list_alter_ext; [|done]; intros w _;
              unfold Workspace.with_manifest; by rewrite Hsame).
        rewrite alter_with_manifest_twice. apply list_alter_ext; [|done].
        intros w _. unfold Workspace.with_manifest. simpl.
        by rewrite applySuggestions_idemp.
      * rewrite alter_with_manifest_twice. apply list_alter_ext; [|done].
        intros w _. unfold Workspace.with_manifest. simpl.
        by rewrite applySuggestions_idemp.
    + unfold settle. by rewrite Hscan, Hprobe.
Qed.

End Rescan.

Lemma alter_insert_lookup {A} (f : A → A) i (l : list A) x :
  l !! i = Some x → alter f i l = <[i := f x]> l.
Proof.
  intros Hx. rewrite list_insert_alter. apply list_alter_ext; [|done].
  intros y Hy. congruence.
Qed.

(** ** The removal hook *)

Lemma removal_loop types i k project :
  forEach types
    (λ type,
       project ← getProject;
       let current :=
         w ← project !! i;
         Manifest.get (Workspace.manifest w) type !! identHash k in
       match current with
       | None => mret tt
       | Some _ => manifestDelete i type (identHash k)
       end)
    project
  = mkRun (Returns tt) (alter (Workspace.with_manifest (shed k types)) i project) [].
Proof.
  revert project. induction types as [|type types IH]; intros project.
  - simpl. unfold mret, Hook_ret. f_equal.
    symmetry. apply list_alter_id. intros w. by apply with_manifest_same.
  - simpl. unfold mbind at 1. unfold Hook_bind at 1.
    unfold mbind at 1. unfold Hook_bind at 1. simpl.
    destruct (project !! i) as [w|] eqn:Hw; simpl.
    + destruct (Manifest.get (Workspace.manifest w) type !! identHash k) as [e|] eqn:He; simpl.
      * rewrite IH. simpl. by rewrite alter_with_manifest_twice.
      * rewrite IH. simpl. f_equal. apply list_alter_ext; [|done].
        intros x Hx. assert (x = w) as -> by congruence.
        unfold Workspace.with_manifest. simpl. f_equal. f_equal.
        apply manifest_ext. intros type'.
        destruct (decide (type = type')) as [<-|Hne].
        -- rewrite manifest_get_update_eq. by rewrite delete_id.
        -- by rewrite manifest_get_update_ne.
    + rewrite IH. simpl. f_equal. apply list_alter_ext; [|done].
      intros x Hx. congruence.
Qed.

Lemma get_shed_all k m type :
  Manifest.get (shed k Manifest.allDependencies m) type = delete k (Manifest.get m type).
Proof. by destruct type. Qed.

(** C6. Removing an original dependency (not itself a companion) from the
    workspace at position [i] returns normally, asks the resolver
    nothing, and leaves every other workspace as it was; in the
    triggering workspace each of the four dependency collections loses
    the entry under the companion identity and keeps every other entry. *)
Theorem removal_sheds_companion_everywhere i target d (project : list Workspace.t) w :
  project !! i = Some w →
  scope (ident d) ≠ Some "types" →
  let r := afterWorkspaceDependencyRemoval i target d project in
  outcome r = Returns tt
  ∧ queries r = []
  ∧ (∀ j, j ≠ i → final r !! j = project !! j)
  ∧ ∃ w', final r !! i = Some w'
      ∧ Workspace.cwd w' = Workspace.cwd w
      ∧ Workspace.dependencies w' = Workspace.dependencies w
      ∧ ∀ type,
          Manifest.get (Workspace.manifest w') type !! atTypesIdent d = None
          ∧ (∀ k, k ≠ atTypesIdent d →
                  Manifest.get (Workspace.manifest w') type !! k
                  = Manifest.get (Workspace.manifest w) type !! k).
Proof.
  intros Hw Hscope. unfold afterWorkspaceDependencyRemoval.
  rewrite bool_decide_eq_false_2 by done. cbv zeta.
  pose proof (removal_loop Manifest.allDependencies i
                (makeIdent (Some "types") (getTypesName d)) project) as Hloop.
  cbv zeta in Hloop. rewrite Hloop. clear Hloop.
  cbn [outcome final queries]. split_and!; [done | done | |].
  - intros j Hj. by rewrite list_lookup_alter_ne.
  - eexists. rewrite list_lookup_alter_eq, Hw. cbn [fmap option_fmap option_map].
    split_and!; [done..|].
    intros type. cbn [Workspace.manifest Workspace.with_manifest].
    rewrite get_shed_all. split.
    + apply lookup_delete_eq.
    + intros k Hk. by apply lookup_delete_ne.
Qed.


(** ** The addition hook *)

Lemma applySuggestions_keyed l m : keyed m → keyed (applySuggestions l m).
Proof.
  unfold applySuggestions. revert m. induction l as [|[type e] l IH]; intros m Hm; [done|].
  simpl. apply IH. intros type' k e' H.
  destruct (decide (type = type')) as [<-|Hne].
  - rewrite manifest_get_update_eq in H.
    destruct (decide (identHash (ident e) = k)) as [<-|Hk].
    + rewrite lookup_insert_eq in H. congruence.
    + rewrite lookup_insert_ne in H by done. by apply (Hm type).
  - rewrite manifest_get_update_ne in H by done. by apply (Hm type').
Qed.

Lemma Forall_alter_keyed f i (project : list Workspace.t) :
  (∀ m, keyed m → keyed (f m)) →
  Forall (λ w, keyed (Workspace.manifest w)) project →
  Forall (λ w, keyed (Workspace.manifest w)) (alter (Workspace.with_manifest f) i project).
Proof.
  intros Hf H. rewrite Forall_lookup in H |- *. intros j w Hw.
  rewrite list_lookup_alter in Hw. case_decide as Hij.
  - destruct (project !! i) as [x|] eqn:Hx; simplify_eq/=. apply Hf. by eapply H.
  - by eapply H.
Qed.

Section AdditionProperties.

Variable hasDefinitelyTyped : Descriptor → bool.
Variable parseRange : string → Range.
Variable validRange : string → bool.
Variable coerce : string → option SemVer.
Variable resolver : Descriptor → option (list Package).

Local Abbreviation select := (selectRange parseRange validRange resolver).
Local Abbreviation addition :=
  (afterWorkspaceDependencyAddition hasDefinitelyTyped parseRange validRange coerce resolver).
Local Abbreviation removal := afterWorkspaceDependencyRemoval.

Lemma selectRange_queries d project :
  queries (select d project) = [] ∨ queries (select d project) = [d].
Proof.
  unfold selectRange. destruct (validRange _); simpl; [by left|].
  unfold mbind, Hook_bind, getCandidates. simpl.
  destruct (resolver d) as [[|c cs]|]; by right.
Qed.

Lemma fresh_is_not_original d version :
  scope (ident d) ≠ Some "types" → d ≠ freshAtTypesDescriptor d version.
Proof. intros Hscope Heq. apply Hscope. by rewrite Heq. Qed.

Lemma original_is_not_companion d version :
  scope (ident d) ≠ Some "types" →
  identHash (ident d) ≠ identHash (ident (freshAtTypesDescriptor d version)).
Proof. intros Hscope Heq. apply Hscope. unfold identHash in Heq. by rewrite Heq. Qed.

(** The hook keeps every entry under the hash of its own identity. *)
Lemma addition_keyed i target d project :
  Forall (λ w, keyed (Workspace.manifest w)) project →
  Forall (λ w, keyed (Workspace.manifest w)) (final (addition i target d project)).
Proof.
  intros Hk.
  destruct (addition_cases hasDefinitelyTyped parseRange validRange coerce resolver
              i target d project) as [-> | (selected & version & H1 & H2 & H3 & H4)];
    [done|].
  rewrite (addition_settles _ _ _ _ _ i target d project selected version) by done.
  cbn [final]. unfold settle.
  destruct (mapAndFind _ _) as [l|].
  - cbn [final]. apply Forall_alter_keyed; [|done]. apply applySuggestions_keyed.
  - destruct (resolver _) as [[|c cs]|]; cbn [final]; [done| |done].
    apply Forall_alter_keyed; [|done].
    intros m Hm. by apply (applySuggestions_keyed [(Target.DEVELOPMENT, _)]).
Qed.

(** C8. The companion identity of [@scope/name] is [scope__name] under
    the [types] scope, that of an unscoped [name] is [name] under that
    scope; and on a descriptor whose scope is [types] (in particular on
    a companion descriptor) both hooks return at once, leaving the
    workspaces untouched and asking the resolver nothing: no companion
    of a companion is derived. *)
Theorem companion_identity_not_derived_twice
    (c : Ascii.ascii) (s n r : string) i target (d : Descriptor)
    (project : list Workspace.t) :
  atTypesIdent (makeDescriptor (makeIdent (Some (String c s)) n) r)
    = makeIdent (Some "types") (String c s +:+ "__" +:+ n)
  ∧ atTypesIdent (makeDescriptor (makeIdent None n) r) = makeIdent (Some "types") n
  ∧ addition i target (makeDescriptor (makeIdent (Some "types") n) r) project
    = mkRun (Returns tt) project []
  ∧ removal i target (makeDescriptor (makeIdent (Some "types") n) r) project
    = mkRun (Returns tt) project []
  ∧ addition i target (makeDescriptor (atTypesIdent d) r) project
    = mkRun (Returns tt) project []
  ∧ removal i target (makeDescriptor (atTypesIdent d) r) project
    = mkRun (Returns tt) project [].
Proof. split_and!; reflexivity. Qed.

Lemma holdsAtTypes_entries k w :
  holdsAtTypes k w ↔ atTypesDependenciesOf k w ≠ [].
Proof.
  split.
  - intros (type & e & H) Hnil. apply entries_elem in H.
    rewrite Hnil in H. by apply elem_of_nil in H.
  - intros Hne. destruct (atTypesDependenciesOf k w) as [|[type e] l] eqn:E; [done|].
    exists type, e. apply entries_elem. rewrite E. left.
Qed.

Lemma suggestion_qualifies d version s :
  dependsOnSame d s = true → holdsAtTypes (atTypesIdent d) s →
  suggestion d (freshAtTypesDescriptor d version) s
  = Some (atTypesDependenciesOf (atTypesIdent d) s).
Proof.
  intros Hsame Hholds. apply suggestion_Some. split_and!; [done..|].
  by apply holdsAtTypes_entries.
Qed.

Lemma suggestion_skips d version s :
  dependsOnSame d s = false ∨ ¬ holdsAtTypes (atTypesIdent d) s →
  suggestion d (freshAtTypesDescriptor d version) s = None.
Proof.
  intros [Hsame|Hholds]; apply suggestion_None; [by left|right].
  destruct (atTypesDependenciesOf _ s) eqn:E; [done|].
  exfalso. apply Hholds, holdsAtTypes_entries.
  change (identHash (ident (freshAtTypesDescriptor d version))) with (atTypesIdent d) in E.
  by rewrite E.
Qed.

(** C10. When the workspaces scanned before [s] each either do not
    depend on the original package by the same descriptor or hold no
    companion entry, and [s] does both, the hook copies the companion
    entries of [s] and of no other workspace: whatever the workspaces
    after [s] hold, each collection of the triggering workspace gains
    the entry [s] holds under that kind and is otherwise left as it
    was (so a kind under which [s] holds no companion entry is not
    touched). *)
Theorem propagation_from_first_match_only
    i target d (pre post : list Workspace.t) s selected version :
  scope (ident d) ≠ Some "types" →
  hasDefinitelyTyped d = true →
  outcome (select d (pre ++ s :: post)) = Returns selected →
  coerce selected = Some version →
  Forall (λ w, dependsOnSame d w = false ∨ ¬ holdsAtTypes (atTypesIdent d) w) pre →
  dependsOnSame d s = true →
  holdsAtTypes (atTypesIdent d) s →
  let project := pre ++ s :: post in
  let r := addition i target d project in
  final r
  = alter (Workspace.with_manifest
             (applySuggestions (atTypesDependenciesOf (atTypesIdent d) s))) i project
  ∧ (∀ j, j ≠ i → final r !! j = project !! j)
  ∧ ∀ w, project !! i = Some w →
         ∃ w', final r !! i = Some w'
               ∧ ∀ type,
                   Manifest.get (Workspace.manifest w') type
                   = match Manifest.get (Workspace.manifest s) type !! atTypesIdent d with
                     | Some e => <[identHash (ident e) := e]>
                                   (Manifest.get (Workspace.manifest w) type)
                     | None => Manifest.get (Workspace.manifest w) type
                     end.
Proof.
  intros Hscope Hdt Hsel Hco Hpre Hsame Hholds project r. subst r project.
  rewrite (addition_settles _ _ _ _ _ i target d _ selected version) by done.
  cbn [final]. unfold settle.
  rewrite (mapAndFind_first pre post s _ (atTypesDependenciesOf (atTypesIdent d) s)).
  - cbn [final]. split_and!; [done| |].
    + intros j Hj. by rewrite list_lookup_alter_ne.
    + intros w Hw. eexists. rewrite list_lookup_alter_eq, Hw.
      split; [done|]. intros type. cbn [Workspace.manifest Workspace.with_manifest].
      apply get_applySuggestions.
  - eapply Forall_impl; [exact Hpre|]. intros w Hw. by apply suggestion_skips.
  - by apply suggestion_qualifies.
Qed.

(** C3. When some workspace depends on the original package by the same
    descriptor and holds a companion entry, the hook returns normally
    without probing the fresh companion descriptor, and there is such a
    workspace (the first one, at or before the given one) all of whose
    companion entries the triggering workspace receives, each under the
    kind and with the range the sibling has it. *)
Theorem propagation_copies_sibling_entries
    i target d (project : list Workspace.t) selected version j s :
  scope (ident d) ≠ Some "types" →
  hasDefinitelyTyped d = true →
  outcome (select d project) = Returns selected →
  coerce selected = Some version →
  project !! j = Some s →
  dependsOnSame d s = true →
  holdsAtTypes (atTypesIdent d) s →
  let r := addition i target d project in
  outcome r = Returns tt
  ∧ (freshAtTypesDescriptor d version ∉ queries r)
  ∧ ∃ j0 s0,
      j0 ≤ j
      ∧ project !! j0 = Some s0
      ∧ dependsOnSame d s0 = true
      ∧ holdsAtTypes (atTypesIdent d) s0
      ∧ final r
        = alter (Workspace.with_manifest
                   (applySuggestions (atTypesDependenciesOf (atTypesIdent d) s0))) i project
      ∧ ∀ w, project !! i = Some w →
             ∃ w', final r !! i = Some w'
                   ∧ ∀ type e,
                       Manifest.get (Workspace.manifest s0) type !! atTypesIdent d = Some e →
                       (Manifest.get (Workspace.manifest w') type)
                         !! (identHash (ident e)) = Some e.
Proof.
  intros Hscope Hdt Hsel Hco Hj Hsame Hholds r. subst r.
  rewrite (addition_settles _ _ _ _ _ i target d _ selected version) by done.
  cbn [outcome final queries]. unfold settle.
  destruct (mapAndFind project _) as [l|] eqn:Hscan.
  - cbn [final queries]. rewrite app_nil_r. split_and!; [done| |].
    + destruct (selectRange_queries d project) as [-> | ->].
      * apply not_elem_of_nil.
      * rewrite list_elem_of_singleton. intros Heq.
        by apply (fresh_is_not_original d version).
    + apply mapAndFind_Some in Hscan as (pre & s0 & post & -> & Hpre & Hs0).
      apply suggestion_Some in Hs0 as (Hsame0 & -> & Hne0).
      exists (length pre), s0. split_and!.
      * destruct (decide (j < length pre)) as [Hlt|]; [|lia].
        rewrite lookup_app_l in Hj by done.
        rewrite Forall_lookup in Hpre. specialize (Hpre _ _ Hj).
        by rewrite (suggestion_qualifies d version s) in Hpre.
      * by rewrite list_lookup_middle.
      * done.
      * by apply holdsAtTypes_entries.
      * done.
      * intros w Hw. eexists. rewrite list_lookup_alter_eq, Hw.
        split; [done|]. intros type e He.
        cbn [Workspace.manifest Workspace.with_manifest].
        rewrite get_applySuggestions.
        change (identHash (ident (freshAtTypesDescriptor d version)))
          with (atTypesIdent d).
        rewrite He. apply lookup_insert_eq.
  - exfalso. apply mapAndFind_None in Hscan.
    rewrite Forall_lookup in Hscan. specialize (Hscan _ _ Hj).
    by rewrite (suggestion_qualifies d version s) in Hscan.
Qed.

(** C4. When no workspace both depends on the original package by the
    same descriptor and holds a companion entry, the hook probes the
    fresh companion descriptor (its last query) and returns normally;
    if the probe is rejected or answers no candidate the workspaces are
    left as they were; otherwise the fresh descriptor is inserted into
    the development collection of the triggering workspace, and no
    other collection and no other workspace changes. *)
Theorem fallback_probe_then_development_only
    i target d (project : list Workspace.t) selected version :
  scope (ident d) ≠ Some "types" →
  hasDefinitelyTyped d = true →
  outcome (select d project) = Returns selected →
  coerce selected = Some version →
  Forall (λ w, dependsOnSame d w = false ∨ ¬ holdsAtTypes (atTypesIdent d) w) project →
  let fresh := freshAtTypesDescriptor d version in
  let r := addition i target d project in
  outcome r = Returns tt
  ∧ queries r = queries (select d project) ++ [fresh]
  ∧ match resolver fresh with
    | Some (_ :: _) =>
        final r
        = alter (Workspace.with_manifest
                   (Manifest.update Manifest.DevDependencies
                      (insert (atTypesIdent d) fresh))) i project
    | _ => final r = project
    end
  ∧ (∀ j, j ≠ i → final r !! j = project !! j)
  ∧ ∀ w w' type,
      project !! i = Some w → final r !! i = Some w' →
      type ≠ Manifest.DevDependencies →
      Manifest.get (Workspace.manifest w') type = Manifest.get (Workspace.manifest w) type.
Proof.
  intros Hscope Hdt Hsel Hco Hnone fresh r. subst r fresh.
  rewrite (addition_settles _ _ _ _ _ i target d _ selected version) by done.
  cbn [outcome final queries]. unfold settle.
  assert (mapAndFind project (suggestion d (freshAtTypesDescriptor d version)) = None)
    as ->.
  { apply mapAndFind_None. eapply Forall_impl; [exact Hnone|].
    intros w Hw. by apply suggestion_skips. }
  destruct (resolver (freshAtTypesDescriptor d version)) as [[|c cs]|];
    cbn [final queries]; split_and!; try done.
  - intros w w' type Hw Hw' _. congruence.
  - intros j Hj. by rewrite list_lookup_alter_ne.
  - intros w w' type Hw Hw' Htype.
    rewrite list_lookup_alter_eq, Hw in Hw'.
    cbn [fmap option_fmap option_map] in Hw'. injection Hw' as <-.
    cbn [Workspace.manifest Workspace.with_manifest].
    apply manifest_get_update_ne. intros Heq. by apply Htype.
  - intros w w' type Hw Hw' _. congruence.
Qed.

Lemma addition_uncoercible i target d project selected :
  scope (ident d) ≠ Some "types" →
  hasDefinitelyTyped d = true →
  outcome (select d project) = Returns selected →
  coerce selected = None →
  addition i target d project = mkRun (Returns tt) project (queries (select d project)).
Proof.
  intros Hscope Hdt Hsel Hco. unfold afterWorkspaceDependencyAddition.
  rewrite bool_decide_eq_false_2 by done. rewrite Hdt. simpl.
  unfold mbind at 1. unfold Hook_bind at 1.
  rewrite Hsel, selectRange_final, Hco. simpl. by rewrite app_nil_r.
Qed.

(** When the selection throws, so does the hook. *)
Lemma addition_selection_throws i target d project e :
  scope (ident d) ≠ Some "types" →
  hasDefinitelyTyped d = true →
  outcome (select d project) = Throws e →
  addition i target d project = mkRun (Throws e) project (queries (select d project)).
Proof.
  intros Hscope Hdt Hsel. unfold afterWorkspaceDependencyAddition.
  rewrite bool_decide_eq_false_2 by done. rewrite Hdt. simpl.
  unfold mbind at 1. unfold Hook_bind at 1.
  by rewrite Hsel, selectRange_final.
Qed.


(** C5. For an original descriptor outside the [types] scope whose
    package ships no declarations: a selector that is a valid semver
    range is used as it is and the resolver is not asked; otherwise the
    selector of the first candidate the resolver gives for the original
    descriptor is used; if the chosen selector does not coerce the hook
    returns normally and leaves the workspaces untouched; if it coerces
    to a version, the hook goes on with the companion descriptor whose
    range is the caret followed by the major component (version 4.2.1
    gives [^4]). *)
Theorem companion_range_is_caret_of_major i target d (project : list Workspace.t) :
  scope (ident d) ≠ Some "types" →
  hasDefinitelyTyped d = true →
  (validRange (selector (parseRange (range d))) = true →
   select d project = mkRun (Returns (selector (parseRange (range d)))) project [])
  ∧ (∀ c cs,
       validRange (selector (parseRange (range d))) = false →
       resolver d = Some (c :: cs) →
       select d project
       = mkRun (Returns (selector (parseRange (reference c)))) project [d])
  ∧ (∀ selected,
       outcome (select d project) = Returns selected →
       coerce selected = None →
       addition i target d project
       = mkRun (Returns tt) project (queries (select d project)))
  ∧ (∀ selected version,
       outcome (select d project) = Returns selected →
       coerce selected = Some version →
       let companion :=
         makeDescriptor (makeIdent (Some "types") (getTypesName d))
                        ("^" +:+ pretty (major version)) in
       let s := settle resolver i d companion project in
       addition i target d project
       = mkRun (Returns tt) (final s) (queries (select d project) ++ queries s))
  ∧ range (freshAtTypesDescriptor d (makeSemVer 4 2 1)) = "^4".
Proof.
  intros Hscope Hdt. split_and!.
  - apply selectRange_valid.
  - intros c cs. apply selectRange_tag.
  - intros selected. by apply addition_uncoercible.
  - intros selected version Hsel Hco.
    by apply (addition_settles _ _ _ _ _ i target d project selected version).
  - reflexivity.
Qed.

(** C9. On workspaces whose collections are keyed by the identity of
    their entries, running the hook again on the workspaces the first
    run left, with the same answers of the declarations predicate and
    of the resolver, leaves every workspace exactly as the first run
    left it. *)
Theorem addition_idempotent i target d (project : list Workspace.t) :
  Forall (λ w, keyed (Workspace.manifest w)) project →
  let once := addition i target d project in
  let twice := addition i target d (final once) in
  final twice = final once.
Proof.
  intros Hkeyed once twice. subst once twice.
  destruct (addition_cases hasDefinitelyTyped parseRange validRange coerce resolver
              i target d project) as [Hsame | (selected & version & H1 & H2 & H3 & H4)].
  - rewrite Hsame. exact Hsame.
  - rewrite (addition_settles _ _ _ _ _ i target d project selected version) by done.
    cbn [final].
    rewrite (addition_settles _ _ _ _ _ i target d _ selected version); try done.
    + cbn [final]. apply settle_idemp; [|done].
      by apply original_is_not_companion.
    + by rewrite <- (proj1 (selectRange_indep parseRange validRange resolver d project _)).
Qed.

End AdditionProperties.

(** ** The reference synchronizer *)

Lemma reconcile_loop (old : gset string) (refs : list string) c (acc : list Reference) :
  foldl (λ '(configChanged, newReferences) relativePath,
           (if bool_decide (relativePath ∉ old) then true else configChanged,
            newReferences ++ [makeReference relativePath]))
        (c, acc) refs
  = (if bool_decide (Exists (λ p, p ∉ old) refs) then true else c,
     acc ++ (makeReference <$> refs)).
Proof.
  revert c acc. induction refs as [|x refs IH]; intros c acc; cbn [foldl fmap list_fmap].
  - rewrite bool_decide_eq_false_2 by (by inversion 1). by rewrite app_nil_r.
  - rewrite IH. rewrite <- app_assoc. cbn [app]. f_equal.
    destruct (decide (x ∉ old)) as [Hx|Hx].
    + rewrite (bool_decide_eq_true_2 (x ∉ old)) by done.
      rewrite (bool_decide_eq_true_2 (Exists _ (x :: refs))) by (by left).
      by case_bool_decide.
    + rewrite (bool_decide_eq_false_2 (x ∉ old)) by done.
      case_bool_decide as Hrefs.
      * rewrite bool_decide_eq_true_2; [done|]. by right.
      * rewrite bool_decide_eq_false_2; [done|].
        rewrite Exists_cons. tauto.
Qed.

(** The reconciliation of an existing, parsed document. *)
Lemma reconcileReferences_parsed refs doc :
  reconcileReferences refs (Some doc)
  = match refs with
    | [] =>
        match references doc with
        | Some _ => (true, makeTsConfig None (members doc))
        | None => (false, doc)
        end
    | _ :: _ =>
        (bool_decide
           (Exists (λ p, p ∉ (list_to_set (path <$> default [] (references doc)) : gset string))
                   refs),
         makeTsConfig (Some (makeReference <$> refs)) (members doc))
    end.
Proof.
  unfold reconcileReferences. destruct refs as [|x refs]; [done|].
  cbn [length Nat.eqb]. rewrite reconcile_loop. cbn [app].
  by case_bool_decide.
Qed.

(** The reconciliation of a missing or malformed document. *)
Lemma reconcileReferences_unread refs :
  reconcileReferences refs None
  = (true, makeTsConfig (match refs with [] => None | _ => Some (makeReference <$> refs) end) []).
Proof.
  unfold reconcileReferences. destruct refs as [|x refs]; [done|].
  cbn [length Nat.eqb]. rewrite reconcile_loop. cbn [app].
  by case_bool_decide.
Qed.

Lemma path_makeReference (refs : list string) : path <$> (makeReference <$> refs) = refs.
Proof. induction refs as [|x refs IH]; [done|]. rewrite !fmap_cons. cbn [path]. by f_equal. Qed.

(** A document that comes out of the reconciliation needs no change. *)
Lemma reconcileReferences_settled refs read :
  reconcileReferences refs (Some (reconcileReferences refs read).2)
  = (false, (reconcileReferences refs read).2).
Proof.
  assert (∀ m, reconcileReferences refs
                 (Some (makeTsConfig (match refs with
                                      | [] => None
                                      | _ => Some (makeReference <$> refs)
                                      end) m))
               = (false, makeTsConfig (match refs with
                                       | [] => None
                                       | _ => Some (makeReference <$> refs)
                                       end) m)) as Hfix.
  { intros m. rewrite reconcileReferences_parsed. destruct refs as [|x refs]; [done|].
    cbn [references members default from_option id]. rewrite path_makeReference.
    rewrite bool_decide_eq_false_2; [done|].
    rewrite Exists_exists. intros (p & Hp & Hnot). apply Hnot.
    by apply elem_of_list_to_set. }
  destruct read as [doc|].
  - rewrite (reconcileReferences_parsed refs doc). destruct refs as [|x refs].
    + destruct (references doc) eqn:E; cbn [snd].
      * apply (Hfix (members doc)).
      * rewrite reconcileReferences_parsed. by rewrite E.
    + cbn [snd]. apply (Hfix (members doc)).
  - rewrite reconcileReferences_unread. cbn [snd]. apply Hfix.
Qed.

Section SynchronizerProperties.

Variable isVirtualDescriptor : Descriptor → bool.
Variable devirtualizeDescriptor : Descriptor → Descriptor.
Variable tryWorkspaceByIdent : list Workspace.t → Ident → option nat.
Variable accepts : Workspace.t → string → bool.
Variable relative : string → string → string.
Variable join : string → string → string.
Variable writable : string → bool.

Local Abbreviation referenced :=
  (referencedWorkspaces isVirtualDescriptor devirtualizeDescriptor tryWorkspaceByIdent
                        accepts relative).
Local Abbreviation pathOf := (tsconfigPath join).
Local Abbreviation syncOne :=
  (syncWorkspace isVirtualDescriptor devirtualizeDescriptor tryWorkspaceByIdent
                 accepts relative join writable).
Local Abbreviation syncRest :=
  (syncFrom isVirtualDescriptor devirtualizeDescriptor tryWorkspaceByIdent
            accepts relative join writable).
Local Abbreviation syncAll :=
  (afterAllInstalled isVirtualDescriptor devirtualizeDescriptor tryWorkspaceByIdent
                     accepts relative join writable).

Lemma readJsonPromise_ext (files files' : gmap string File) p :
  files !! p = files' !! p → readJsonPromise files p = readJsonPromise files' p.
Proof. unfold readJsonPromise. by intros ->. Qed.

(** One iteration, in terms of the reconciliation. *)
Lemma syncWorkspace_unfold project i w files :
  syncOne project i w files
  = let rc := reconcileReferences (referenced project i w)
                                  (readJsonPromise files (pathOf w)) in
    if rc.1 then
      if writable (pathOf w)
      then mkSync (Returns tt) (<[pathOf w := Json rc.2]> files) [pathOf w]
      else mkSync (Throws StorageFailure) files []
    else mkSync (Returns tt) files [].
Proof. unfold syncWorkspace. by destruct (reconcileReferences _ _) as [c t]. Qed.

(** An iteration writes at most the document of its own workspace. *)
Lemma syncWorkspace_disk_other project i w files p :
  p ≠ pathOf w → disk (syncOne project i w files) !! p = files !! p.
Proof.
  intros Hp. rewrite syncWorkspace_unfold. cbv zeta.
  destruct (reconcileReferences _ _).1; [|done].
  destruct (writable _); [|done]. cbn [disk]. by rewrite lookup_insert_ne.
Qed.

(** After an iteration that returned, the document on disk needs no
    change. *)
Lemma syncWorkspace_settled project i w files :
  sync_outcome (syncOne project i w files) = Returns tt →
  (reconcileReferences (referenced project i w)
     (readJsonPromise (disk (syncOne project i w files)) (pathOf w))).1 = false.
Proof.
  rewrite syncWorkspace_unfold. cbv zeta.
  destruct (reconcileReferences _ (readJsonPromise files _)).1 eqn:Hc.
  - destruct (writable _); [|done]. intros _. cbn [disk].
    unfold readJsonPromise at 1. rewrite lookup_insert_eq.
    by rewrite reconcileReferences_settled.
  - intros _. cbn [disk]. exact Hc.
Qed.

(** An iteration whose document needs no change does nothing. *)
Lemma syncWorkspace_idle project i w files :
  (reconcileReferences (referenced project i w)
     (readJsonPromise files (pathOf w))).1 = false →
  syncOne project i w files = mkSync (Returns tt) files [].
Proof. intros Hc. rewrite syncWorkspace_unfold. cbv zeta. by rewrite Hc. Qed.

Lemma syncFrom_disk_other project i rest files p :
  p ∉ pathOf <$> rest → disk (syncRest project i rest files) !! p = files !! p.
Proof.
  revert i files. induction rest as [|w rest IH]; intros i files Hp; [done|].
  rewrite fmap_cons, not_elem_of_cons in Hp. destruct Hp as [Hw Hrest].
  cbn [syncFrom].
  destruct (sync_outcome (syncOne project i w files)).
  - cbn [disk]. rewrite IH by done. by apply syncWorkspace_disk_other.
  - by apply syncWorkspace_disk_other.
Qed.

Lemma syncFrom_again project i rest files files' :
  NoDup (pathOf <$> rest) →
  sync_outcome (syncRest project i rest files) = Returns tt →
  (∀ p, p ∈ pathOf <$> rest → files' !! p = disk (syncRest project i rest files) !! p) →
  syncRest project i rest files' = mkSync (Returns tt) files' [].
Proof.
  revert i files. induction rest as [|w rest IH]; intros i files Hnodup Hok Hagree; [done|].
  rewrite fmap_cons, NoDup_cons in Hnodup. destruct Hnodup as [Hw Hnodup].
  cbn [syncFrom] in Hok, Hagree |- *.
  destruct (sync_outcome (syncOne project i w files)) as [[]|e] eqn:Hone.
  - cbn [sync_outcome disk] in Hok, Hagree.
    assert (files' !! pathOf w = disk (syncOne project i w files) !! pathOf w) as Hsame.
    { rewrite Hagree by (rewrite fmap_cons; left).
      by apply syncFrom_disk_other. }
    rewrite (syncWorkspace_idle project i w files').
    + cbn [sync_outcome disk written app].
      rewrite (IH (S i) (disk (syncOne project i w files))); [done..|].
      intros p Hp. apply Hagree. rewrite fmap_cons. by right.
    + rewrite (readJsonPromise_ext _ _ _ Hsame). by apply syncWorkspace_settled.
  - rewrite Hone in Hok. done.
Qed.

(** C7. When the documents of distinct workspaces are distinct files
    and a first pass of the synchronizer returned (every write it
    attempted succeeded), a second pass over the same workspaces, on
    the disk the first pass left, returns without writing any document
    and leaves the disk as it is. *)
Theorem second_pass_writes_nothing (project : list Workspace.t) (files : gmap string File) :
  NoDup (pathOf <$> project) →
  sync_outcome (syncAll project files) = Returns tt →
  syncAll project (disk (syncAll project files))
  = mkSync (Returns tt) (disk (syncAll project files)) [].
Proof.
  intros Hnodup Hok. unfold afterAllInstalled in *.
  by apply (syncFrom_again project 0 project files).
Qed.

(** What the iteration does with a parsed, writable document: it is
    persisted exactly when no path is computed and a reference list is
    declared, or some computed path is missing from the existing list. *)
Lemma syncWorkspace_written_iff project i w (files : gmap string File) doc :
  readJsonPromise files (pathOf w) = Some doc →
  writable (pathOf w) = true →
  written (syncOne project i w files) = [pathOf w]
  ↔ (referenced project i w = [] ∧ references doc ≠ None)
    ∨ (referenced project i w ≠ []
       ∧ ∃ p, p ∈ referenced project i w
              ∧ p ∉ (list_to_set (path <$> default [] (references doc)) : gset string)).
Proof.
  intros Hread Hw. rewrite syncWorkspace_unfold. cbv zeta. rewrite Hread, Hw.
  rewrite reconcileReferences_parsed.
  destruct (referenced project i w) as [|x refs'].
  - destruct (references doc); cbn [fst written]; split; try done.
    + intros _. by left.
    + intros [[_ ?]|[? _]]; done.
  - case_bool_decide as Hex; cbn [fst written]; split; try done.
    + intros _. right. split; [done|]. by apply Exists_exists in Hex.
    + intros [[? _]|[_ Hp]]; [done|]. exfalso. apply Hex. by apply Exists_exists.
Qed.

(** C1, as the code has it: for a workspace whose document exists and
    parses and can be written, (a) with no referenced workspace the
    document is persisted exactly when it declares a reference list,
    be it empty; (b) with referenced workspaces it is persisted when
    some computed path is missing from the existing list, and (c) it is
    not persisted when the computed paths and the existing paths are
    the same set; (d) what is persisted is the document with its
    reference list replaced by the computed one (dropped when there is
    none) and its other members unchanged. *)
Theorem sync_persists_on_missing_path project i w (files : gmap string File) doc :
  readJsonPromise files (pathOf w) = Some doc →
  writable (pathOf w) = true →
  let refs := referenced project i w in
  let old : gset string := list_to_set (path <$> default [] (references doc)) in
  let r := syncOne project i w files in
  (refs = [] → (written r = [pathOf w] ↔ references doc ≠ None))
  ∧ (refs ≠ [] → (∃ p, p ∈ refs ∧ p ∉ old) → written r = [pathOf w])
  ∧ (refs ≠ [] → list_to_set refs = old → written r = [] ∧ disk r = files)
  ∧ (written r = [pathOf w] →
     disk r
     = <[pathOf w :=
           Json (makeTsConfig
                   (match refs with [] => None | _ => Some (makeReference <$> refs) end)
                   (members doc))]> files)
  ∧ (written r = [] ∨ written r = [pathOf w]).
Proof.
  intros Hread Hw refs old r. subst r.
  rewrite syncWorkspace_unfold. cbv zeta. rewrite Hread, Hw.
  rewrite reconcileReferences_parsed. fold refs. fold old.
  destruct refs as [|x refs'] eqn:Hrefs.
  - destruct (references doc) as [l|] eqn:Hl; cbn [fst snd written disk];
      split_and!; try done; try (by left); try (by right).
  - case_bool_decide as Hex; cbn [fst snd written disk];
      split_and!; try done; try (by left); try (by right).
    + intros _ Heq. exfalso. apply Exists_exists in Hex as (p & Hp & Hnot).
      apply Hnot. rewrite <- Heq. by apply elem_of_list_to_set.
    + intros _ (p & Hp & Hnot). exfalso. apply Hex. apply Exists_exists. by exists p.
Qed.

End SynchronizerProperties.

(** ** The statements at concrete inputs *)

Lemma keyed_empty : keyed Manifest.empty.
Proof. intros [] k e H; simpl in H; by rewrite lookup_empty in H. Qed.

Example propagation_example :
  Demo.addition 0 Target.REGULAR Scenario.fooCaret2 [Scenario.a; Scenario.b; Scenario.c]
  = mkRun (Returns tt)
          [Demo.workspace "a" [Demo.fooAt "^2.0.0"] [Demo.typesFooAt "^1.5"];
           Scenario.b; Scenario.c]
          [].
Proof. vm_compute. reflexivity. Qed.

Example tag_example :
  Demo.addition 0 Target.REGULAR Scenario.fooLatest
    [Demo.workspace "a" [Demo.fooAt "latest"] []]
  = mkRun (Returns tt)
          [Demo.workspace "a" [Demo.fooAt "latest"] [Demo.typesFooAt "^4"]]
          [Scenario.fooLatest; makeDescriptor Demo.typesFoo "^4"].
Proof. vm_compute. reflexivity. Qed.

(** C2 on the code: a tag the resolver rejects ([foo@next]) makes the hook
    end by the resolver's exception, and a tag for which the resolver has
    no candidate ([foo@beta]) makes it end by a [TypeError]; in both cases
    the caller gets an exception instead of a normal return. *)
Theorem addition_throws_on_unresolved_tag :
  Demo.addition 0 Target.REGULAR (makeDescriptor Demo.foo "next")
    [Demo.workspace "a" [Demo.fooAt "next"] []]
  = mkRun (Throws ResolverFailure)
          [Demo.workspace "a" [Demo.fooAt "next"] []]
          [makeDescriptor Demo.foo "next"]
  ∧ Demo.addition 0 Target.REGULAR (makeDescriptor Demo.foo "beta")
      [Demo.workspace "a" [Demo.fooAt "beta"] []]
    = mkRun (Throws TypeError)
            [Demo.workspace "a" [Demo.fooAt "beta"] []]
            [makeDescriptor Demo.foo "beta"].
Proof. split; vm_compute; reflexivity. Qed.

Lemma propagation_copies_sibling_entries_witness :
  outcome (Demo.addition 0 Target.REGULAR Scenario.fooCaret2
             [Scenario.a; Scenario.b; Scenario.c]) = Returns tt.
Proof.
  refine (proj1 (propagation_copies_sibling_entries
                   Demo.hasDefinitelyTyped Demo.parseRange Demo.validRange Demo.coerce
                   Demo.resolver 0 Target.REGULAR Scenario.fooCaret2
                   [Scenario.a; Scenario.b; Scenario.c] "^2.0.0" (makeSemVer 2 0 0)
                   2 Scenario.c _ _ _ _ _ _ _)).
  - simpl. discriminate.
  - reflexivity.
  - reflexivity.
  - reflexivity.
  - reflexivity.
  - vm_compute. reflexivity.
  - exists Manifest.PeerDependencies, (makeDescriptor Demo.typesFoo "*").
    vm_compute. reflexivity.
Defined.

Lemma propagation_from_first_match_only_witness :
  final (Demo.addition 0 Target.REGULAR Scenario.fooCaret2
           ([Scenario.a] ++ Scenario.b :: [Scenario.c]))
  = alter (Workspace.with_manifest
             (applySuggestions
                (atTypesDependenciesOf (atTypesIdent Scenario.fooCaret2) Scenario.b)))
          0 ([Scenario.a] ++ Scenario.b :: [Scenario.c]).
Proof.
  refine (proj1 (propagation_from_first_match_only
                   Demo.hasDefinitelyTyped Demo.parseRange Demo.validRange Demo.coerce
                   Demo.resolver 0 Target.REGULAR Scenario.fooCaret2
                   [Scenario.a] [Scenario.c] Scenario.b "^2.0.0" (makeSemVer 2 0 0)
                   _ _ _ _ _ _ _)).
  - simpl. discriminate.
  - reflexivity.
  - reflexivity.
  - reflexivity.
  - constructor; [right|constructor].
    intros (type & e & H). destruct type; vm_compute in H; discriminate.
  - vm_compute. reflexivity.
  - exists Manifest.DevDependencies, (makeDescriptor Demo.typesFoo "^1.5").
    vm_compute. reflexivity.
Defined.

Lemma fallback_probe_then_development_only_witness :
  queries (Demo.addition 0 Target.REGULAR Scenario.fooCaret2 [Scenario.a])
  = queries (selectRange Demo.parseRange Demo.validRange Demo.resolver
               Scenario.fooCaret2 [Scenario.a])
    ++ [freshAtTypesDescriptor Scenario.fooCaret2 (makeSemVer 2 0 0)].
Proof.
  refine (proj1 (proj2 (fallback_probe_then_development_only
                          Demo.hasDefinitelyTyped Demo.parseRange Demo.validRange
                          Demo.coerce Demo.resolver 0 Target.REGULAR Scenario.fooCaret2
                          [Scenario.a] "^2.0.0" (makeSemVer 2 0 0) _ _ _ _ _))).
  - simpl. discriminate.
  - reflexivity.
  - reflexivity.
  - reflexivity.
  - constructor; [right|constructor].
    intros (type & e & H). destruct type; vm_compute in H; discriminate.
Defined.

Lemma companion_range_is_caret_of_major_witness :
  let project := [Demo.workspace "a" [Demo.fooAt "latest"] []] in
  let s := settle Demo.resolver 0 Scenario.fooLatest
             (makeDescriptor (makeIdent (Some "types") "foo") "^4") project in
  Demo.addition 0 Target.REGULAR Scenario.fooLatest project
  = mkRun (Returns tt) (final s)
          (queries (selectRange Demo.parseRange Demo.validRange Demo.resolver
                      Scenario.fooLatest project) ++ queries s).
Proof.
  refine (proj1 (proj2 (proj2 (proj2
            (companion_range_is_caret_of_major
               Demo.hasDefinitelyTyped Demo.parseRange Demo.validRange Demo.coerce
               Demo.resolver 0 Target.REGULAR Scenario.fooLatest
               [Demo.workspace "a" [Demo.fooAt "latest"] []] _ _))))
            "4.2.1" (makeSemVer 4 2 1) _ _).
  - simpl. discriminate.
  - reflexivity.
  - vm_compute. reflexivity.
  - reflexivity.
Defined.

Lemma addition_idempotent_witness :
  final (Demo.addition 0 Target.REGULAR Scenario.fooCaret2
           (final (Demo.addition 0 Target.REGULAR Scenario.fooCaret2 [Scenario.lone])))
  = final (Demo.addition 0 Target.REGULAR Scenario.fooCaret2 [Scenario.lone]).
Proof.
  refine (addition_idempotent
            Demo.hasDefinitelyTyped Demo.parseRange Demo.validRange Demo.coerce
            Demo.resolver 0 Target.REGULAR Scenario.fooCaret2 [Scenario.lone] _).
  constructor; [|constructor]. unfold Scenario.lone. cbn [Workspace.manifest].
  apply (applySuggestions_keyed [(Manifest.Dependencies, Scenario.fooCaret2)]), keyed_empty.
Defined.

Example sync_example :
  Demo.sync Scenario.packages ∅
  = mkSync (Returns tt)
      (list_to_map
         [("a/tsconfig.json", Json (makeTsConfig (Some [Scenario.ref "../b"]) []));
          ("b/tsconfig.json", Json (makeTsConfig None []));
          ("c/tsconfig.json", Json (makeTsConfig None []))])
      ["a/tsconfig.json"; "b/tsconfig.json"; "c/tsconfig.json"].
Proof. vm_compute. reflexivity. Qed.

Lemma second_pass_writes_nothing_witness :
  Demo.sync Scenario.packages (disk (Demo.sync Scenario.packages ∅))
  = mkSync (Returns tt) (disk (Demo.sync Scenario.packages ∅)) [].
Proof.
  refine (second_pass_writes_nothing
            Demo.isVirtualDescriptor Demo.devirtualizeDescriptor Demo.tryWorkspaceByIdent
            Demo.accepts Demo.relative Demo.join Demo.writable
            Scenario.packages ∅ _ _).
  - apply (bool_decide_unpack _). vm_compute. exact I.
  - vm_compute. reflexivity.
Defined.

Lemma sync_persists_on_missing_path_witness :
  written (Demo.syncOne Scenario.packages 0 (Demo.package "a" ["b"])
             {["a/tsconfig.json" := Json (makeTsConfig (Some [Scenario.ref "../c"]) [])]})
  = [] ∨
  written (Demo.syncOne Scenario.packages 0 (Demo.package "a" ["b"])
             {["a/tsconfig.json" := Json (makeTsConfig (Some [Scenario.ref "../c"]) [])]})
  = ["a/tsconfig.json"].
Proof.
  refine (proj2 (proj2 (proj2 (proj2
            (sync_persists_on_missing_path
               Demo.isVirtualDescriptor Demo.devirtualizeDescriptor
               Demo.tryWorkspaceByIdent Demo.accepts Demo.relative Demo.join Demo.writable
               Scenario.packages 0 (Demo.package "a" ["b"])
               {["a/tsconfig.json" := Json (makeTsConfig (Some [Scenario.ref "../c"]) [])]}
               (makeTsConfig (Some [Scenario.ref "../c"]) []) _ _))))).
  - vm_compute. reflexivity.
  - reflexivity.
Defined.

(** C1 as stated fails in both directions.  (1) A document that declares
    an empty reference list, for a workspace without referenced
    workspaces: the computed set and the existing set are both empty, and
    the document is persisted all the same (without its [references]
    member).  (2) The one-sided comparison of lines 177-182: the existing
    list [../b, ../c] strictly contains the computed [../b]; the sets
    differ, and the document is not persisted, so the stale [../c] stays
    on disk. *)
Lemma persisted_iff_sets_differ_fails :
  (let w := Demo.package "b" [] in
   let doc := makeTsConfig (Some []) [("compilerOptions", "{}")] in
   let files : gmap string File := {["b/tsconfig.json" := Json doc]} in
   readJsonPromise files (tsconfigPath Demo.join w) = Some doc
   ∧ Demo.syncOne Scenario.packages 1 w files
     = mkSync (Returns tt)
              {["b/tsconfig.json" := Json (makeTsConfig None [("compilerOptions", "{}")])]}
              ["b/tsconfig.json"]
   ∧ ¬ persistedIffSetsDiffer
         (referencedWorkspaces Demo.isVirtualDescriptor Demo.devirtualizeDescriptor
            Demo.tryWorkspaceByIdent Demo.accepts Demo.relative Scenario.packages 1 w)
         doc
         (Demo.syncOne Scenario.packages 1 w files))
  ∧ (let w := Demo.package "a" ["b"] in
     let doc := makeTsConfig (Some [Scenario.ref "../b"; Scenario.ref "../c"]) [] in
     let files : gmap string File := {["a/tsconfig.json" := Json doc]} in
     readJsonPromise files (tsconfigPath Demo.join w) = Some doc
     ∧ referencedWorkspaces Demo.isVirtualDescriptor Demo.devirtualizeDescriptor
         Demo.tryWorkspaceByIdent Demo.accepts Demo.relative Scenario.packages 0 w
       = ["../b"]
     ∧ Demo.syncOne Scenario.packages 0 w files = mkSync (Returns tt) files []
     ∧ ¬ persistedIffSetsDiffer ["../b"] doc (Demo.syncOne Scenario.packages 0 w files)).
Proof.
  split; split_and!.
  - vm_compute. reflexivity.
  - vm_compute. reflexivity.
  - intros [Hwritten _]. apply Hwritten; [|reflexivity].
    vm_compute. discriminate.
  - vm_compute. reflexivity.
  - vm_compute. reflexivity.
  - vm_compute. reflexivity.
  - intros [_ Hdiffer]. apply Hdiffer; [|vm_compute; reflexivity].
    intros Heq.
    assert ("../c" ∈ (list_to_set ["../b"] : gset string)) as Hin
      by (rewrite Heq; apply elem_of_list_to_set; cbn; set_solver).
    apply elem_of_list_to_set, list_elem_of_singleton in Hin. discriminate.
Qed.

Lemma removal_sheds_companion_everywhere_witness :
  let r := afterWorkspaceDependencyRemoval 0 Target.REGULAR Scenario.fooCaret2
             [Scenario.c; Scenario.b] in
  outcome r = Returns tt ∧ queries r = [] ∧ ∀ j, j ≠ 0 → final r !! j = [Scenario.c; Scenario.b] !! j.
Proof.
  pose proof (removal_sheds_companion_everywhere 0 Target.REGULAR Scenario.fooCaret2
                [Scenario.c; Scenario.b] Scenario.c) as H.
  refine (let H' := H _ _ in conj (proj1 H') (conj (proj1 (proj2 H')) (proj1 (proj2 (proj2 H'))))).
  - reflexivity.
  - simpl. discriminate.
Defined.

Example removal_example :
  afterWorkspaceDependencyRemoval 0 Target.REGULAR (makeDescriptor Demo.foo "^2.0.0")
    [Workspace.make "a"
       (Manifest.make (list_to_map [Demo.fooAt "^2.0.0"; Demo.typesFooAt "^2"])
                      (list_to_map [Demo.typesFooAt "^2"])
                      (list_to_map [Demo.typesFooAt "*"])
                      ∅) []]
  = mkRun (Returns tt)
      [Workspace.make "a" (Manifest.make (list_to_map [Demo.fooAt "^2.0.0"]) ∅ ∅ ∅) []]
      [].
Proof. vm_compute. reflexivity. Qed.

(** ** The publish manifest adjuster *)

Section PackingProperties.

Variable Value : Type.
Variable truthyValue : Value → bool.
Variable member : Value → string → option Value.

Local Abbreviation truthyOf := (truthyMember Value truthyValue).
Local Abbreviation override := (publishConfigMember Value member).
Local Abbreviation promoted := (promote Value truthyValue member).
Local Abbreviation overrides := (overrides Value truthyValue member).
Local Abbreviation pack := (beforeWorkspacePacking Value truthyValue member).

Lemma promote_lookup key (raw : gmap string Value) k :
  promoted key raw !! k
  = if decide (k = key)
    then (if overrides raw key then override raw key else raw !! key)
    else raw !! k.
Proof.
  unfold promote, overrides.
  destruct (truthyOf (raw !! "publishConfig") && truthyOf (override raw key)) eqn:Hc.
  - destruct (override raw key) as [v|] eqn:Hv.
    + case_decide as Hk.
      * subst k. apply lookup_insert_eq.
      * by rewrite lookup_insert_ne.
    + rewrite andb_comm in Hc. done.
  - by case_decide as Hk; [subst k|].
Qed.

Lemma override_promote key key' (raw : gmap string Value) :
  key ≠ "publishConfig" → override (promoted key raw) key' = override raw key'.
Proof.
  intros Hkey. unfold publishConfigMember.
  rewrite promote_lookup. by rewrite decide_False.
Qed.

Lemma overrides_promote key key' (raw : gmap string Value) :
  key ≠ "publishConfig" → overrides (promoted key raw) key' = overrides raw key'.
Proof.
  intros Hkey. unfold overrides. rewrite override_promote by done.
  rewrite promote_lookup. by rewrite decide_False.
Qed.

Lemma pack_lookup workspace (raw : gmap string Value) k :
  pack workspace raw !! k
  = if decide (k = "types")
    then (if overrides raw "types" then override raw "types" else raw !! "types")
    else if decide (k = "typings")
    then (if overrides raw "typings" then override raw "typings" else raw !! "typings")
    else raw !! k.
Proof.
  unfold beforeWorkspacePacking. rewrite promote_lookup.
  rewrite overrides_promote, override_promote by done.
  case_decide as Htypes.
  - subst k. destruct (overrides raw "types"); [done|].
    rewrite promote_lookup. by rewrite decide_False.
  - apply promote_lookup.
Qed.

(** X1. Packing changes a raw manifest at its [typings] and [types]
    members only: every other member, [publishConfig] included, reads as
    before; each of the two is the member of the same name of
    [publishConfig] when [publishConfig] and that member are both truthy
    (an existing top-level member is then overwritten), and is left as it
    was otherwise (a falsy override does not clobber it); no member is
    ever removed. *)
Theorem packing_promotes_typings_and_types_only workspace (raw : gmap string Value) :
  (∀ k, k ≠ "typings" → k ≠ "types" → pack workspace raw !! k = raw !! k)
  ∧ pack workspace raw !! "typings"
    = (if overrides raw "typings" then override raw "typings" else raw !! "typings")
  ∧ pack workspace raw !! "types"
    = (if overrides raw "types" then override raw "types" else raw !! "types")
  ∧ (∀ key, overrides raw key = true → is_Some (override raw key))
  ∧ (∀ k, is_Some (raw !! k) → is_Some (pack workspace raw !! k)).
Proof.
  assert (∀ key, overrides raw key = true → is_Some (override raw key)) as Hsome.
  { intros key. unfold overrides. destruct (override raw key); [by eexists|].
    by rewrite andb_comm. }
  split_and!.
  - intros k H1 H2. rewrite pack_lookup. by rewrite !decide_False.
  - rewrite pack_lookup. by rewrite decide_False, decide_True.
  - rewrite pack_lookup. by rewrite decide_True.
  - exact Hsome.
  - intros k Hk. rewrite pack_lookup.
    repeat case_decide; subst; try done.
    + destruct (overrides raw "types") eqn:E; [by apply Hsome | done].
    + destruct (overrides raw "typings") eqn:E; [by apply Hsome | done].
Qed.

(** X2. Packing an already packed raw manifest changes nothing. *)
Theorem packing_idempotent workspace workspace' (raw : gmap string Value) :
  pack workspace' (pack workspace raw) = pack workspace raw.
Proof.
  apply map_eq. intros k. rewrite (pack_lookup workspace' (pack workspace raw)).
  assert (∀ key, override (pack workspace raw) key = override raw key) as Hov.
  { intros key. unfold beforeWorkspacePacking. by rewrite !override_promote. }
  assert (∀ key, overrides (pack workspace raw) key = overrides raw key) as Hovs.
  { intros key. unfold beforeWorkspacePacking. by rewrite !overrides_promote. }
  rewrite !Hov, !Hovs. rewrite !(pack_lookup workspace raw).
  rewrite (decide_True (P := "types" = "types")) by done.
  rewrite (decide_False (P := "typings" = "types")) by done.
  rewrite (decide_True (P := "typings" = "typings")) by done.
  repeat case_decide; try done.
  - by destruct (overrides raw "types").
  - by destruct (overrides raw "typings").
Qed.

End PackingProperties.

Lemma packing_promotes_typings_and_types_only_witness :
  let raw : gmap string DemoPacking.value :=
    list_to_map [("name", DemoPacking.Str "pkg");
                 ("types", DemoPacking.Str "./src/index.ts");
                 ("publishConfig", DemoPacking.Obj [("types", "./dist/index.d.ts");
                                                    ("typings", "")])] in
  DemoPacking.pack raw !! "name" = raw !! "name".
Proof.
  refine (proj1 (packing_promotes_typings_and_types_only
                   DemoPacking.value DemoPacking.truthyValue DemoPacking.member 0 _)
            "name" _ _); discriminate.
Defined.

Example packing_example :
  DemoPacking.pack
    (list_to_map [("name", DemoPacking.Str "pkg");
                  ("types", DemoPacking.Str "./src/index.ts");
                  ("publishConfig", DemoPacking.Obj [("types", "./dist/index.d.ts");
                                                     ("typings", "")])])
  = list_to_map [("name", DemoPacking.Str "pkg");
                 ("types", DemoPacking.Str "./dist/index.d.ts");
                 ("publishConfig", DemoPacking.Obj [("types", "./dist/index.d.ts");
                                                    ("typings", "")])].
Proof. vm_compute. reflexivity. Qed.

(** ** What the dependency hooks never do *)

Lemma applySuggestions_lookup_other l m type k :
  Forall (λ te : Manifest.AllDependencies * Descriptor, identHash (ident te.2) ≠ k) l →
  Manifest.get (applySuggestions l m) type !! k = Manifest.get m type !! k.
Proof.
  unfold applySuggestions. revert m.
  induction l as [|[type' e] l IH]; intros m Hl; [done|].
  apply Forall_cons in Hl as [He Hl]. cbn [foldl]. rewrite IH by done.
  destruct (decide (type' = type)) as [->|Hne].
  - rewrite manifest_get_update_eq. by apply lookup_insert_ne.
  - by rewrite manifest_get_update_ne.
Qed.

Lemma applySuggestions_is_Some l m type k :
  is_Some (Manifest.get m type !! k) →
  is_Some (Manifest.get (applySuggestions l m) type !! k).
Proof.
  unfold applySuggestions. revert m.
  induction l as [|[type' e] l IH]; intros m Hm; [done|].
  cbn [foldl]. apply IH.
  destruct (decide (type' = type)) as [->|Hne].
  - rewrite manifest_get_update_eq. rewrite lookup_insert. by case_decide.
  - by rewrite manifest_get_update_ne.
Qed.

Lemma shed_applySuggestions k l m :
  Forall (λ te : Manifest.AllDependencies * Descriptor, identHash (ident te.2) = k) l →
  shed k Manifest.allDependencies (applySuggestions l m) = shed k Manifest.allDependencies m.
Proof.
  intros Hl. apply manifest_ext. intros type. rewrite !get_shed_all.
  apply map_eq. intros k'. destruct (decide (k' = k)) as [->|Hne].
  - by rewrite !lookup_delete_eq.
  - rewrite !lookup_delete_ne by done. apply applySuggestions_lookup_other.
    eapply Forall_impl; [exact Hl|]. intros te Hte. congruence.
Qed.

Lemma shed_idemp k m :
  shed k Manifest.allDependencies (shed k Manifest.allDependencies m)
  = shed k Manifest.allDependencies m.
Proof.
  apply manifest_ext. intros type. rewrite !get_shed_all. apply delete_delete_eq.
Qed.

Lemma shed_keyed k m : keyed m → keyed (shed k Manifest.allDependencies m).
Proof.
  intros Hm type k' e H. rewrite get_shed_all in H.
  apply lookup_delete_Some in H as [_ H]. by apply (Hm type).
Qed.

(** The removal hook on any input. *)
Lemma removal_run i target d (project : list Workspace.t) :
  afterWorkspaceDependencyRemoval i target d project
  = mkRun (Returns tt)
          (if bool_decide (scope (ident d) = Some "types") then project
           else alter (Workspace.with_manifest (shed (atTypesIdent d) Manifest.allDependencies))
                      i project)
          [].
Proof.
  unfold afterWorkspaceDependencyRemoval. case_bool_decide as Hscope; [done|].
  cbv zeta.
  pose proof (removal_loop Manifest.allDependencies i
                (makeIdent (Some "types") (getTypesName d)) project) as Hloop.
  cbv zeta in Hloop. by rewrite Hloop.
Qed.

Section HookFrames.

Variable hasDefinitelyTyped : Descriptor → bool.
Variable parseRange : string → Range.
Variable validRange : string → bool.
Variable coerce : string → option SemVer.
Variable resolver : Descriptor → option (list Package).

Local Abbreviation select := (selectRange parseRange validRange resolver).
Local Abbreviation addition :=
  (afterWorkspaceDependencyAddition hasDefinitelyTyped parseRange validRange coerce resolver).
Local Abbreviation removal := afterWorkspaceDependencyRemoval.

(** Whatever the addition hook does, it does by inserting a list of
    entries into the collections of the triggering workspace; on keyed
    workspaces all of them sit under the companion identity. *)
Lemma addition_shape i target d (project : list Workspace.t) :
  ∃ l, final (addition i target d project)
       = alter (Workspace.with_manifest (applySuggestions l)) i project
       ∧ (Forall (λ w, keyed (Workspace.manifest w)) project →
          Forall (λ te : Manifest.AllDependencies * Descriptor,
                    identHash (ident te.2) = atTypesIdent d) l).
Proof.
  assert (project = alter (Workspace.with_manifest (applySuggestions [])) i project) as Hid.
  { symmetry. apply list_alter_id. intros w. by apply with_manifest_same. }
  destruct (addition_cases hasDefinitelyTyped parseRange validRange coerce resolver
              i target d project) as [-> | (selected & version & H1 & H2 & H3 & H4)].
  { exists []. split; [exact Hid | by constructor]. }
  rewrite (addition_settles _ _ _ _ _ i target d project selected version) by done.
  cbn [final]. unfold settle.
  destruct (mapAndFind project _) as [l|] eqn:Hscan.
  - exists l. split; [done|]. intros Hkeyed.
    apply mapAndFind_Some in Hscan as (pre & s & post & -> & _ & Hs).
    apply suggestion_Some in Hs as (_ & -> & _).
    rewrite Forall_app, Forall_cons in Hkeyed. destruct Hkeyed as (_ & Hs & _).
    apply Forall_forall. intros [type e] He. apply entries_elem in He.
    by apply (Hs type).
  - destruct (resolver _) as [[|c cs]|]; cbn [final].
    + exists []. split; [exact Hid | by constructor].
    + exists [(Target.DEVELOPMENT, freshAtTypesDescriptor d version)].
      split; [done|]. intros _. by repeat constructor.
    + exists []. split; [exact Hid | by constructor].
Qed.

(** X3. The addition hook only ever writes to the dependency collections
    of the triggering workspace: the project keeps its length, every
    other workspace is left as it was, and every workspace (the
    triggering one included) keeps its root directory and its resolved
    dependencies. *)
Theorem addition_touches_only_triggering_manifest i target d (project : list Workspace.t) :
  let r := addition i target d project in
  length (final r) = length project
  ∧ ∀ j, (j ≠ i → final r !! j = project !! j)
         ∧ Workspace.cwd <$> final r !! j = Workspace.cwd <$> project !! j
         ∧ Workspace.dependencies <$> final r !! j = Workspace.dependencies <$> project !! j.
Proof.
  intros r. subst r.
  destruct (addition_shape i target d project) as (l & -> & _).
  split; [apply length_alter|]. intros j. split_and!.
  - intros Hj. by apply list_lookup_alter_ne.
  - rewrite list_lookup_alter. case_decide as Hij; [subst j|done].
    by destruct (project !! i).
  - rewrite list_lookup_alter. case_decide as Hij; [subst j|done].
    by destruct (project !! i).
Qed.

(** X4. On keyed workspaces the addition hook writes under the companion
    identity only: in every collection of the triggering workspace each
    entry under another identity (the original dependency among them) is
    as it was, and a collection that held a companion entry still holds
    one. *)
Theorem addition_writes_under_companion_only i target d (project : list Workspace.t) w :
  Forall (λ w, keyed (Workspace.manifest w)) project →
  project !! i = Some w →
  ∃ w', final (addition i target d project) !! i = Some w'
        ∧ ∀ type,
            (∀ k, k ≠ atTypesIdent d →
                  Manifest.get (Workspace.manifest w') type !! k
                  = Manifest.get (Workspace.manifest w) type !! k)
            ∧ (is_Some (Manifest.get (Workspace.manifest w) type !! atTypesIdent d) →
               is_Some (Manifest.get (Workspace.manifest w') type !! atTypesIdent d)).
Proof.
  intros Hkeyed Hw.
  destruct (addition_shape i target d project) as (l & -> & Hl).
  specialize (Hl Hkeyed). eexists. rewrite list_lookup_alter_eq, Hw.
  split; [done|]. intros type. cbn [Workspace.manifest Workspace.with_manifest]. split.
  - intros k Hk. apply applySuggestions_lookup_other.
    eapply Forall_impl; [exact Hl|]. intros te Hte. congruence.
  - apply applySuggestions_is_Some.
Qed.

(** X5. Both hooks keep the dependency collections keyed by the identity
    of their entries. *)
Theorem hooks_keep_collections_keyed i target d (project : list Workspace.t) :
  Forall (λ w, keyed (Workspace.manifest w)) project →
  Forall (λ w, keyed (Workspace.manifest w)) (final (addition i target d project))
  ∧ Forall (λ w, keyed (Workspace.manifest w)) (final (removal i target d project)).
Proof.
  intros Hkeyed. split.
  - by apply addition_keyed.
  - rewrite removal_run. cbn [final]. case_bool_decide; [done|].
    apply Forall_alter_keyed; [|done]. apply shed_keyed.
Qed.

(** X6. On keyed workspaces, removing the original dependency right after
    its addition leaves the workspaces exactly as removing it without the
    addition does: the removal undoes whatever the addition wrote. *)
Theorem removal_undoes_addition i target target' d (project : list Workspace.t) :
  Forall (λ w, keyed (Workspace.manifest w)) project →
  final (removal i target' d (final (addition i target d project)))
  = final (removal i target' d project).
Proof.
  intros Hkeyed. rewrite !removal_run. cbn [final].
  destruct (addition_shape i target d project) as (l & Hfinal & Hl).
  specialize (Hl Hkeyed).
  case_bool_decide as Hscope.
  - rewrite Hfinal.
    assert (final (addition i target d project) = project) as Hsame.
    { unfold afterWorkspaceDependencyAddition. by rewrite bool_decide_eq_true_2. }
    by rewrite <- Hfinal, Hsame.
  - rewrite Hfinal, alter_with_manifest_twice. apply list_alter_ext; [|done].
    intros w _. unfold Workspace.with_manifest. cbn [Workspace.manifest compose].
    by rewrite shed_applySuggestions.
Qed.

(** X7. The removal hook always returns normally without asking the
    resolver; removing twice is removing once; and a workspace that holds
    no entry under the companion identity is left exactly as it was. *)
Theorem removal_total_idempotent_and_idle i target d (project : list Workspace.t) :
  let r := removal i target d project in
  outcome r = Returns tt
  ∧ queries r = []
  ∧ final (removal i target d (final r)) = final r
  ∧ (∀ w, project !! i = Some w → ¬ holdsAtTypes (atTypesIdent d) w → final r = project).
Proof.
  intros r. subst r. rewrite !removal_run. cbn [outcome queries final].
  split_and!; [done..| |].
  - case_bool_decide; [done|].
    rewrite alter_with_manifest_twice. apply list_alter_ext; [|done].
    intros w _. unfold Workspace.with_manifest. cbn [Workspace.manifest compose].
    by rewrite shed_idemp.
  - intros w Hw Hholds. case_bool_decide; [done|].
    etransitivity; [|apply (list_alter_id id); done].
    apply list_alter_ext; [|done]. intros x Hx. assert (x = w) as -> by congruence.
    apply with_manifest_same, manifest_ext. intros type. rewrite get_shed_all.
    apply delete_id.
    destruct (Manifest.get (Workspace.manifest w) type !! atTypesIdent d) as [e|] eqn:He;
      [|done].
    exfalso. apply Hholds. by exists type, e.
Qed.

Lemma selectRange_runs d (project : list Workspace.t) :
  select d project
  = if validRange (selector (parseRange (range d)))
    then mkRun (Returns (selector (parseRange (range d)))) project []
    else match resolver d with
         | None => mkRun (Throws ResolverFailure) project [d]
         | Some [] => mkRun (Throws TypeError) project [d]
         | Some (c :: _) => mkRun (Returns (selector (parseRange (reference c)))) project [d]
         end.
Proof.
  destruct (validRange _) eqn:Hvalid; [by apply selectRange_valid|].
  destruct (resolver d) as [[|c cs]|] eqn:Hr.
  - by apply selectRange_no_candidate.
  - by apply (selectRange_tag _ _ _ d project c cs).
  - by apply selectRange_rejected.
Qed.

Lemma settle_queries i d atD (project : list Workspace.t) :
  queries (settle resolver i d atD project) = []
  ∨ queries (settle resolver i d atD project) = [atD].
Proof.
  unfold settle. destruct (mapAndFind _ _); [by left|].
  destruct (resolver atD) as [[|c cs]|]; by right.
Qed.

(** The runs of the addition hook. *)
Lemma addition_runs i target d (project : list Workspace.t) :
  ((scope (ident d) = Some "types" ∨ hasDefinitelyTyped d = false)
   ∧ addition i target d project = mkRun (Returns tt) project [])
  ∨ (scope (ident d) ≠ Some "types" ∧ hasDefinitelyTyped d = true
     ∧ match outcome (select d project) with
       | Throws e =>
           addition i target d project
           = mkRun (Throws e) project (queries (select d project))
       | Returns selected =>
           match coerce selected with
           | None =>
               addition i target d project
               = mkRun (Returns tt) project (queries (select d project))
           | Some version =>
               addition i target d project
               = let s := settle resolver i d (freshAtTypesDescriptor d version) project in
                 mkRun (Returns tt) (final s) (queries (select d project) ++ queries s)
           end
       end).
Proof.
  destruct (decide (scope (ident d) = Some "types")) as [Hscope|Hscope].
  { left. split; [by left|]. unfold afterWorkspaceDependencyAddition.
    by rewrite bool_decide_eq_true_2. }
  destruct (hasDefinitelyTyped d) eqn:Hdt.
  2: { left. split; [by right|]. unfold afterWorkspaceDependencyAddition.
       rewrite bool_decide_eq_false_2 by done. by rewrite Hdt. }
  right. split_and!; [done..|].
  destruct (outcome (select d project)) as [selected|e] eqn:Hsel.
  - destruct (coerce selected) as [version|] eqn:Hco.
    + by apply (addition_settles _ _ _ _ _ i target d project selected version).
    + by apply (addition_uncoercible _ _ _ _ _ i target d project selected).
  - by apply (addition_selection_throws _ _ _ _ _ i target d project e).
Qed.


(** X9. The addition hook asks the resolver at most twice, and only about
    the original descriptor and the fresh companion descriptor of some
    version: it asks nothing when the descriptor is in the [types] scope
    or [hasDefinitelyTyped] answers false for it, and it does not ask
    about the original descriptor when its selector is a valid semver
    range. *)
Theorem addition_asks_about_original_and_companion_only
    i target d (project : list Workspace.t) :
  let r := addition i target d project in
  (scope (ident d) = Some "types" ∨ hasDefinitelyTyped d = false → queries r = [])
  ∧ (validRange (selector (parseRange (range d))) = true → d ∉ queries r)
  ∧ length (queries r) ≤ 2
  ∧ ∀ q, q ∈ queries r → q = d ∨ ∃ version, q = freshAtTypesDescriptor d version.
Proof.
  intros r. subst r.
  destruct (addition_runs i target d project) as [[Hgate Hrun]|(Hscope & Hdt & Hrun)].
  { rewrite Hrun. cbn [queries]. split_and!; try done.
    - intros _. apply not_elem_of_nil.
    - simpl. lia.
    - intros q Hq. by apply elem_of_nil in Hq. }
  assert (queries (select d project)
          = if validRange (selector (parseRange (range d))) then [] else [d]) as Hqs.
  { rewrite selectRange_runs. destruct (validRange _); [done|].
    by destruct (resolver d) as [[|c cs]|]. }
  assert (∀ qs : list Descriptor,
            (qs = [] ∨ ∃ version, qs = [freshAtTypesDescriptor d version]) →
            queries (addition i target d project) = queries (select d project) ++ qs →
            (scope (ident d) = Some "types" ∨ hasDefinitelyTyped d = false →
             queries (addition i target d project) = [])
            ∧ (validRange (selector (parseRange (range d))) = true →
               d ∉ queries (addition i target d project))
            ∧ length (queries (addition i target d project)) ≤ 2
            ∧ ∀ q, q ∈ queries (addition i target d project) →
                   q = d ∨ ∃ version, q = freshAtTypesDescriptor d version) as Hgoal.
  { intros qs Hprobe ->. rewrite Hqs. split_and!.
    - intros [?|?]; [done | congruence].
    - intros ->. cbn [app]. destruct Hprobe as [->|[version ->]].
      + apply not_elem_of_nil.
      + rewrite list_elem_of_singleton. by apply fresh_is_not_original.
    - destruct (validRange _), Hprobe as [->|[version ->]]; simpl; lia.
    - intros q Hq. apply elem_of_app in Hq as [Hq|Hq].
      + left. destruct (validRange _); [by apply elem_of_nil in Hq|].
        by apply list_elem_of_singleton in Hq.
      + right. destruct Hprobe as [->|[version ->]]; [by apply elem_of_nil in Hq|].
        exists version. by apply list_elem_of_singleton in Hq. }
  destruct (outcome (select d project)) as [selected|e].
  - destruct (coerce selected) as [version|].
    + destruct (settle_queries i d (freshAtTypesDescriptor d version) project) as [Hs|Hs].
      * apply (Hgoal []); [by left|]. rewrite Hrun. cbn [queries]. by rewrite Hs.
      * apply (Hgoal [freshAtTypesDescriptor d version]); [right; by eexists|].
        rewrite Hrun. cbn [queries]. by rewrite Hs.
    + apply (Hgoal []); [by left|]. rewrite Hrun. cbn [queries]. by rewrite app_nil_r.
  - apply (Hgoal []); [by left|]. rewrite Hrun. cbn [queries]. by rewrite app_nil_r.
Qed.

(** X16. A companion entry the triggering workspace already holds is not
    replaced by a fresh one: when the workspace (keyed) depends on the
    original package by the very descriptor and holds a companion entry,
    and no workspace scanned before it does both, the hook returns
    leaving every workspace exactly as it was, and does not probe any
    companion descriptor. *)
Theorem addition_keeps_own_companion i target d (project : list Workspace.t) w :
  project !! i = Some w →
  keyed (Workspace.manifest w) →
  dependsOnSame d w = true →
  holdsAtTypes (atTypesIdent d) w →
  Forall (λ s, dependsOnSame d s = false ∨ ¬ holdsAtTypes (atTypesIdent d) s)
         (take i project) →
  let r := addition i target d project in
  final r = project
  ∧ ∀ version, freshAtTypesDescriptor d version ∉ queries r.
Proof.
  intros Hw Hkeyed Hsame Hholds Hpre r. subst r.
  destruct (addition_runs i target d project) as [[_ Hrun]|(Hscope & Hdt & Hrun)].
  { rewrite Hrun. split; [done|]. intros version. apply not_elem_of_nil. }
  assert (∀ version, freshAtTypesDescriptor d version ∉ queries (select d project)) as Hqs.
  { intros version.
    destruct (selectRange_queries parseRange validRange resolver d project) as [-> | ->].
    - apply not_elem_of_nil.
    - rewrite list_elem_of_singleton. intros Heq.
      by apply (fresh_is_not_original d version). }
  destruct (outcome (select d project)) as [selected|e].
  2: { by rewrite Hrun. }
  destruct (coerce selected) as [version|].
  2: { by rewrite Hrun. }
  assert (mapAndFind project (suggestion d (freshAtTypesDescriptor d version))
          = Some (atTypesDependenciesOf (atTypesIdent d) w)) as Hscan.
  { rewrite <- (take_drop_middle project i w Hw). apply mapAndFind_first.
    - eapply Forall_impl; [exact Hpre|]. intros s Hs. by apply suggestion_skips.
    - by apply suggestion_qualifies. }
  rewrite Hrun. cbv zeta. unfold settle. rewrite Hscan. cbn [final queries].
  rewrite app_nil_r. split; [|done].
  etransitivity; [|apply (list_alter_id id); done].
  apply list_alter_ext; [|done]. intros x Hx. assert (x = w) as -> by congruence.
  apply with_manifest_same, manifest_ext. intros type. rewrite get_applySuggestions.
  destruct (Manifest.get (Workspace.manifest w) type !! atTypesIdent d) as [e'|] eqn:He;
    [|done].
  rewrite (Hkeyed _ _ _ He). by apply insert_id.
Qed.

End HookFrames.

(** ** The reference synchronizer, pass by pass *)

Lemma length_omap_le {A B} (f : A → option B) (l : list A) :
  length (omap f l) ≤ length l.
Proof.
  induction l as [|x l IH]; [done|]. cbn [omap list_omap].
  destruct (f x); simpl; lia.
Qed.

Section SynchronizerPasses.

Variable isVirtualDescriptor : Descriptor → bool.
Variable devirtualizeDescriptor : Descriptor → Descriptor.
Variable tryWorkspaceByIdent : list Workspace.t → Ident → option nat.
Variable accepts : Workspace.t → string → bool.
Variable relative : string → string → string.
Variable join : string → string → string.
Variable writable : string → bool.

Local Abbreviation byDescriptor :=
  (tryWorkspaceByDescriptor isVirtualDescriptor devirtualizeDescriptor tryWorkspaceByIdent
                            accepts).
Local Abbreviation referenced :=
  (referencedWorkspaces isVirtualDescriptor devirtualizeDescriptor tryWorkspaceByIdent
                        accepts relative).
Local Abbreviation pathOf := (tsconfigPath join).
Local Abbreviation syncOne :=
  (syncWorkspace isVirtualDescriptor devirtualizeDescriptor tryWorkspaceByIdent
                 accepts relative join writable).
Local Abbreviation syncRest :=
  (syncFrom isVirtualDescriptor devirtualizeDescriptor tryWorkspaceByIdent
            accepts relative join writable).
Local Abbreviation syncAll :=
  (afterAllInstalled isVirtualDescriptor devirtualizeDescriptor tryWorkspaceByIdent
                     accepts relative join writable).

(** X10. A relative path is listed for a workspace exactly when one of its
    dependencies (devirtualized if virtual) names, by its identity, a
    workspace of the project at another position that accepts the range
    of the dependency; the path is the one from the workspace to that
    workspace.  So a workspace never references itself, nor a workspace
    that does not accept the range, and lists no more paths than it has
    dependencies. *)
Theorem references_are_other_accepting_workspaces
    (project : list Workspace.t) i w p :
  (p ∈ referenced project i w
   ↔ ∃ k d j w',
       (k, d) ∈ Workspace.dependencies w
       ∧ tryWorkspaceByIdent project
           (ident (if isVirtualDescriptor d then devirtualizeDescriptor d else d)) = Some j
       ∧ project !! j = Some w'
       ∧ accepts w' (range (if isVirtualDescriptor d then devirtualizeDescriptor d else d))
         = true
       ∧ j ≠ i
       ∧ p = relative (Workspace.cwd w) (Workspace.cwd w'))
  ∧ length (referenced project i w) ≤ length (Workspace.dependencies w).
Proof.
  split; [|apply length_omap_le].
  unfold referencedWorkspaces. rewrite list_elem_of_omap. split.
  - intros ([k d] & Hin & Hp). exists k, d.
    unfold tryWorkspaceByDescriptor in Hp. cbv zeta in Hp.
    destruct (tryWorkspaceByIdent project _) as [j|] eqn:Hj; [|done].
    destruct (project !! j) as [w'|] eqn:Hw'; [|done].
    destruct (accepts w' _) eqn:Hacc; [|done]. cbn [negb] in Hp.
    case_bool_decide as Hji; [done|]. exists j, w'. by simplify_eq.
  - intros (k & d & j & w' & Hin & Hj & Hw' & Hacc & Hji & ->).
    exists (k, d). split; [done|].
    unfold tryWorkspaceByDescriptor. cbv zeta. rewrite Hj, Hw', Hacc. cbn [negb].
    by rewrite bool_decide_eq_false_2.
Qed.

(** X11. A document that is missing or does not parse is always written
    anew, even when no workspace is referenced: what is written holds the
    computed reference list (no [references] member when it is empty) and
    no other member, so whatever a malformed file held is dropped; when
    the path cannot be written the iteration throws and the disk is left
    as it was. *)
Theorem unreadable_document_is_written_anew
    (project : list Workspace.t) i w (files : gmap string File) :
  readJsonPromise files (pathOf w) = None →
  syncOne project i w files
  = if writable (pathOf w)
    then mkSync (Returns tt)
           (<[pathOf w :=
                Json (makeTsConfig
                        (match referenced project i w with
                         | [] => None
                         | _ => Some (makeReference <$> referenced project i w)
                         end) [])]> files)
           [pathOf w]
    else mkSync (Throws StorageFailure) files [].
Proof.
  intros Hread. rewrite syncWorkspace_unfold. cbv zeta.
  by rewrite Hread, reconcileReferences_unread.
Qed.

Lemma syncWorkspace_post (project : list Workspace.t) i w (files : gmap string File) :
  sync_outcome (syncOne project i w files) = Returns tt →
  ∃ doc,
    readJsonPromise (disk (syncOne project i w files)) (pathOf w) = Some doc
    ∧ (referenced project i w = [] → references doc = None)
    ∧ (∀ p, p ∈ referenced project i w → ∃ l, references doc = Some l ∧ p ∈ path <$> l)
    ∧ (∀ doc0, readJsonPromise files (pathOf w) = Some doc0 → members doc = members doc0).
Proof.
  rewrite syncWorkspace_unfold. cbv zeta.
  assert (∀ t, readJsonPromise (<[pathOf w := Json t]> files) (pathOf w) = Some t) as Hnew.
  { intros t. unfold readJsonPromise. by rewrite lookup_insert_eq. }
  destruct (readJsonPromise files (pathOf w)) as [doc0|] eqn:Hread.
  - rewrite reconcileReferences_parsed.
    destruct (referenced project i w) as [|x refs] eqn:Hrefs.
    + destruct (references doc0) eqn:Hl; cbn [fst snd].
      * destruct (writable _); [|done]. intros _. cbn [disk].
        eexists. split; [apply Hnew|]. cbn [references members].
        split_and!; [done| |by intros ? [= <-]].
        intros p Hp. by apply elem_of_nil in Hp.
      * intros _. cbn [disk]. exists doc0.
        split_and!; [done..| |by intros ? [= <-]].
        intros p Hp. by apply elem_of_nil in Hp.
    + case_bool_decide as Hex; cbn [fst snd].
      * destruct (writable _); [|done]. intros _. cbn [disk].
        eexists. split; [apply Hnew|]. cbn [references members].
        split_and!; [done| |by intros ? [= <-]].
        intros p Hp. eexists. split; [done|]. by rewrite path_makeReference.
      * intros _. cbn [disk]. exists doc0.
        split_and!; [done..| |by intros ? [= <-]].
        intros p Hp.
        destruct (decide (p ∈ (list_to_set (path <$> default [] (references doc0))
                               : gset string))) as [Hin|Hnot].
        -- apply elem_of_list_to_set in Hin.
           destruct (references doc0) as [l|]; [by exists l|].
           by apply elem_of_nil in Hin.
        -- exfalso. apply Hex. apply Exists_exists. by exists p.
  - rewrite reconcileReferences_unread. cbn [fst snd].
    destruct (writable _); [|done]. intros _. cbn [disk].
    eexists. split; [apply Hnew|]. cbn [references members].
    split_and!; [| |done].
    + by intros ->.
    + intros p Hp. destruct (referenced project i w) as [|x refs] eqn:Hrefs.
      * by apply elem_of_nil in Hp.
      * eexists. split; [done|]. by rewrite path_makeReference.
Qed.

Lemma syncFrom_post (project : list Workspace.t) i rest (files : gmap string File) :
  NoDup (pathOf <$> rest) →
  sync_outcome (syncRest project i rest files) = Returns tt →
  ∀ k w, rest !! k = Some w →
    ∃ doc,
      readJsonPromise (disk (syncRest project i rest files)) (pathOf w) = Some doc
      ∧ (referenced project (i + k) w = [] → references doc = None)
      ∧ (∀ p, p ∈ referenced project (i + k) w →
              ∃ l, references doc = Some l ∧ p ∈ path <$> l)
      ∧ (∀ doc0, readJsonPromise files (pathOf w) = Some doc0 →
                 members doc = members doc0).
Proof.
  revert i files. induction rest as [|x rest IH]; intros i files Hnodup Hok k w Hk; [done|].
  rewrite fmap_cons, NoDup_cons in Hnodup. destruct Hnodup as [Hx Hnodup].
  cbn [syncFrom] in Hok |- *.
  destruct (sync_outcome (syncOne project i x files)) as [[]|e] eqn:Hone.
  2: { by rewrite Hone in Hok. }
  cbn [sync_outcome disk] in Hok |- *.
  destruct k as [|k].
  - injection Hk as ->. rewrite Nat.add_0_r.
    rewrite (readJsonPromise_ext _ (disk (syncOne project i w files)) (pathOf w)).
    + by apply syncWorkspace_post.
    + by apply syncFrom_disk_other.
  - cbn [lookup list_lookup] in Hk.
    destruct (IH (S i) (disk (syncOne project i x files)) Hnodup Hok k w Hk)
      as (doc & Hdoc & Hnil & Hall & Hmem).
    rewrite Nat.add_succ_r. exists doc. split_and!; [done..|].
    intros doc0 Hdoc0. apply Hmem. rewrite <- Hdoc0. apply readJsonPromise_ext.
    apply syncWorkspace_disk_other. intros Heq. apply Hx. rewrite <- Heq.
    apply list_elem_of_fmap. exists w. split; [done|].
    apply list_elem_of_lookup. by exists k.
Qed.

(** X12. When the documents of distinct workspaces are distinct files and
    the pass returns, every workspace has a parsed document on disk; that
    document lists every path computed for the workspace, has no
    [references] member when none is computed, and has the other members
    the document had before the pass, if it parsed then. *)
Theorem after_pass_every_computed_path_is_listed
    (project : list Workspace.t) (files : gmap string File) i w :
  NoDup (pathOf <$> project) →
  sync_outcome (syncAll project files) = Returns tt →
  project !! i = Some w →
  ∃ doc,
    readJsonPromise (disk (syncAll project files)) (pathOf w) = Some doc
    ∧ (referenced project i w = [] → references doc = None)
    ∧ (∀ p, p ∈ referenced project i w → ∃ l, references doc = Some l ∧ p ∈ path <$> l)
    ∧ (∀ doc0, readJsonPromise files (pathOf w) = Some doc0 → members doc = members doc0).
Proof.
  intros Hnodup Hok Hw. unfold afterAllInstalled in *.
  exact (syncFrom_post project 0 project files Hnodup Hok i w Hw).
Qed.




Lemma syncFrom_app (project : list Workspace.t) i pre post (files : gmap string File) :
  syncRest project i (pre ++ post) files
  = let r := syncRest project i pre files in
    match sync_outcome r with
    | Returns _ =>
        let r' := syncRest project (i + length pre) post (disk r) in
        mkSync (sync_outcome r') (disk r') (written r ++ written r')
    | Throws e => r
    end.
Proof.
  revert i files. induction pre as [|w pre IH]; intros i files.
  { cbn. rewrite Nat.add_0_r. by destruct (syncRest project i post files). }
  cbn [app syncFrom length].
  destruct (sync_outcome (syncOne project i w files)) as [[]|e] eqn:Hone.
  - rewrite IH. cbv zeta. cbn [sync_outcome disk written].
    rewrite Nat.add_succ_r. cbn [Nat.add].
    destruct (sync_outcome (syncRest project (S i) pre _)) eqn:Hpre; [|by rewrite Hpre].
    cbn [sync_outcome disk written]. by rewrite app_assoc.
  - cbv zeta. by rewrite Hone.
Qed.

(** X14. A pass stops at the first document that needs a change
    ([configChanged]) and cannot be written: it ends by the storage
    failure, the workspaces after that one are not visited, and the
    documents written before stay on disk (nothing is rolled back). *)
Theorem pass_stops_at_failed_write
    (project : list Workspace.t) i pre w post (files : gmap string File) :
  let before := syncRest project i pre files in
  sync_outcome before = Returns tt →
  (reconcileReferences (referenced project (i + length pre) w)
     (readJsonPromise (disk before) (pathOf w))).1 = true →
  writable (pathOf w) = false →
  syncRest project i (pre ++ w :: post) files
  = mkSync (Throws StorageFailure) (disk before) (written before).
Proof.
  intros before Hok Hchanged Hw. subst before.
  rewrite syncFrom_app. cbv zeta. rewrite Hok. cbn [syncFrom].
  rewrite syncWorkspace_unfold. cbv zeta. rewrite Hchanged, Hw.
  cbn [sync_outcome disk written]. by rewrite app_nil_r.
Qed.

End SynchronizerPasses.

(** X15. The companion identity does not tell a scoped package from the
    unscoped package whose name is the flattened one: [@scope/name] and
    [scope__name] are different identities with the same companion, so
    (for a scope other than [types]) removing either of them from a
    workspace sheds the same entries; and an empty scope counts as no
    scope. *)
Theorem companion_identity_is_shared
    (c : Ascii.ascii) (s n r r' : string) i target (project : list Workspace.t) :
  let scoped := makeDescriptor (makeIdent (Some (String c s)) n) r in
  let flat := makeDescriptor (makeIdent None (String c s +:+ "__" +:+ n)) r' in
  ident scoped ≠ ident flat
  ∧ atTypesIdent scoped = atTypesIdent flat
  ∧ (String c s ≠ "types" →
     afterWorkspaceDependencyRemoval i target flat project
     = afterWorkspaceDependencyRemoval i target scoped project)
  ∧ atTypesIdent (makeDescriptor (makeIdent (Some "") n) r)
    = atTypesIdent (makeDescriptor (makeIdent None n) r).
Proof.
  intros scoped flat. split_and!; [done | reflexivity | | reflexivity].
  intros Hscope. rewrite !removal_run.
  rewrite !bool_decide_eq_false_2; [done| |done].
  subst scoped. cbn [ident scope]. congruence.
Qed.

(** ** The further statements at concrete inputs *)

Lemma companion_identity_is_shared_witness :
  afterWorkspaceDependencyRemoval 0 Target.REGULAR
    (makeDescriptor (makeIdent None "babel__core") "*") [Scenario.a]
  = afterWorkspaceDependencyRemoval 0 Target.REGULAR
      (makeDescriptor (makeIdent (Some "babel") "core") "^7.0.0") [Scenario.a].
Proof.
  refine (proj1 (proj2 (proj2 (companion_identity_is_shared
                                 (Ascii.ascii_of_nat 98) "abel" "core" "^7.0.0" "*" 0 Target.REGULAR
                                 [Scenario.a]))) _).
  discriminate.
Defined.

Lemma addition_touches_only_triggering_manifest_witness :
  final (Demo.addition 0 Target.REGULAR Scenario.fooCaret2
           [Scenario.a; Scenario.b; Scenario.c]) !! 1
  = [Scenario.a; Scenario.b; Scenario.c] !! 1.
Proof.
  refine (proj1 (proj2 (addition_touches_only_triggering_manifest
                          Demo.hasDefinitelyTyped Demo.parseRange Demo.validRange
                          Demo.coerce Demo.resolver 0 Target.REGULAR Scenario.fooCaret2
                          [Scenario.a; Scenario.b; Scenario.c]) 1) _).
  lia.
Defined.

Lemma addition_writes_under_companion_only_witness :
  is_Some (final (Demo.addition 0 Target.REGULAR Scenario.fooCaret2 [Scenario.lone]) !! 0).
Proof.
  destruct (addition_writes_under_companion_only
              Demo.hasDefinitelyTyped Demo.parseRange Demo.validRange Demo.coerce
              Demo.resolver 0 Target.REGULAR Scenario.fooCaret2 [Scenario.lone]
              Scenario.lone) as (w' & Hw' & _).
  - constructor; [|constructor]. unfold Scenario.lone. cbn [Workspace.manifest].
    apply (applySuggestions_keyed [(Manifest.Dependencies, Scenario.fooCaret2)]), keyed_empty.
  - reflexivity.
  - by exists w'.
Defined.

Lemma hooks_keep_collections_keyed_witness :
  Forall (λ w, keyed (Workspace.manifest w))
         (final (Demo.addition 0 Target.REGULAR Scenario.fooCaret2 [Scenario.lone])).
Proof.
  refine (proj1 (hooks_keep_collections_keyed
                   Demo.hasDefinitelyTyped Demo.parseRange Demo.validRange Demo.coerce
                   Demo.resolver 0 Target.REGULAR Scenario.fooCaret2 [Scenario.lone] _)).
  constructor; [|constructor]. unfold Scenario.lone. cbn [Workspace.manifest].
  apply (applySuggestions_keyed [(Manifest.Dependencies, Scenario.fooCaret2)]), keyed_empty.
Defined.

Lemma removal_undoes_addition_witness :
  final (afterWorkspaceDependencyRemoval 0 Target.REGULAR Scenario.fooCaret2
           (final (Demo.addition 0 Target.REGULAR Scenario.fooCaret2 [Scenario.lone])))
  = final (afterWorkspaceDependencyRemoval 0 Target.REGULAR Scenario.fooCaret2
             [Scenario.lone]).
Proof.
  refine (removal_undoes_addition
            Demo.hasDefinitelyTyped Demo.parseRange Demo.validRange Demo.coerce
            Demo.resolver 0 Target.REGULAR Target.REGULAR Scenario.fooCaret2
            [Scenario.lone] _).
  constructor; [|constructor]. unfold Scenario.lone. cbn [Workspace.manifest].
  apply (applySuggestions_keyed [(Manifest.Dependencies, Scenario.fooCaret2)]), keyed_empty.
Defined.

Lemma removal_total_idempotent_and_idle_witness :
  final (afterWorkspaceDependencyRemoval 0 Target.REGULAR Scenario.fooCaret2 [Scenario.a])
  = [Scenario.a].
Proof.
  refine (proj2 (proj2 (proj2 (removal_total_idempotent_and_idle
                                 0 Target.REGULAR Scenario.fooCaret2 [Scenario.a])))
            Scenario.a _ _).
  - reflexivity.
  - intros (type & e & H). destruct type; vm_compute in H; discriminate.
Defined.


Lemma addition_asks_about_original_and_companion_only_witness :
  Scenario.fooCaret2
  ∉ queries (Demo.addition 0 Target.REGULAR Scenario.fooCaret2 [Scenario.a]).
Proof.
  refine (proj1 (proj2 (addition_asks_about_original_and_companion_only
                          Demo.hasDefinitelyTyped Demo.parseRange Demo.validRange
                          Demo.coerce Demo.resolver 0 Target.REGULAR Scenario.fooCaret2
                          [Scenario.a])) _).
  reflexivity.
Defined.

Lemma references_are_other_accepting_workspaces_witness :
  "../b" ∈ referencedWorkspaces Demo.isVirtualDescriptor Demo.devirtualizeDescriptor
             Demo.tryWorkspaceByIdent Demo.accepts Demo.relative
             Scenario.packages 0 (Demo.package "a" ["b"]).
Proof.
  refine (proj2 (proj1 (references_are_other_accepting_workspaces
                          Demo.isVirtualDescriptor Demo.devirtualizeDescriptor
                          Demo.tryWorkspaceByIdent Demo.accepts Demo.relative
                          Scenario.packages 0 (Demo.package "a" ["b"]) "../b")) _).
  exists (makeIdent None "b"), (makeDescriptor (makeIdent None "b") "workspace:*"),
         1, (Demo.package "b" []).
  split_and!.
  - left.
  - vm_compute. reflexivity.
  - reflexivity.
  - reflexivity.
  - lia.
  - reflexivity.
Defined.

Lemma unreadable_document_is_written_anew_witness :
  Demo.syncOne Scenario.packages 1 (Demo.package "b" [])
    {["b/tsconfig.json" := Unparsable]}
  = mkSync (Returns tt) {["b/tsconfig.json" := Json (makeTsConfig None [])]}
           ["b/tsconfig.json"].
Proof.
  etransitivity.
  - refine (unreadable_document_is_written_anew
              Demo.isVirtualDescriptor Demo.devirtualizeDescriptor
              Demo.tryWorkspaceByIdent Demo.accepts Demo.relative Demo.join Demo.writable
              Scenario.packages 1 (Demo.package "b" [])
              {["b/tsconfig.json" := Unparsable]} _).
    vm_compute. reflexivity.
  - vm_compute. reflexivity.
Defined.

Lemma after_pass_every_computed_path_is_listed_witness :
  is_Some (readJsonPromise (disk (Demo.sync Scenario.packages ∅)) "a/tsconfig.json").
Proof.
  destruct (after_pass_every_computed_path_is_listed
              Demo.isVirtualDescriptor Demo.devirtualizeDescriptor
              Demo.tryWorkspaceByIdent Demo.accepts Demo.relative Demo.join Demo.writable
              Scenario.packages ∅ 0 (Demo.package "a" ["b"])) as (doc & Hdoc & _).
  - apply (bool_decide_unpack _). vm_compute. exact I.
  - vm_compute. reflexivity.
  - reflexivity.
  - by exists doc.
Defined.


Lemma pass_stops_at_failed_write_witness :
  let readOnly := λ p : string, negb (String.eqb p "b/tsconfig.json") in
  let pass :=
    syncFrom Demo.isVirtualDescriptor Demo.devirtualizeDescriptor Demo.tryWorkspaceByIdent
             Demo.accepts Demo.relative Demo.join readOnly Scenario.packages 0 in
  pass ([Demo.package "a" ["b"]] ++ Demo.package "b" [] :: [Demo.package "c" []]) ∅
  = mkSync (Throws StorageFailure)
           (disk (pass [Demo.package "a" ["b"]] ∅))
           (written (pass [Demo.package "a" ["b"]] ∅)).
Proof.
  refine (pass_stops_at_failed_write
            Demo.isVirtualDescriptor Demo.devirtualizeDescriptor Demo.tryWorkspaceByIdent
            Demo.accepts Demo.relative Demo.join
            (λ p : string, negb (String.eqb p "b/tsconfig.json"))
            Scenario.packages 0 [Demo.package "a" ["b"]] (Demo.package "b" [])
            [Demo.package "c" []] ∅ _ _ _).
  - vm_compute. reflexivity.
  - vm_compute. reflexivity.
  - reflexivity.
Defined.

Example failed_write_example :
  syncFrom Demo.isVirtualDescriptor Demo.devirtualizeDescriptor Demo.tryWorkspaceByIdent
           Demo.accepts Demo.relative Demo.join
           (λ p : string, negb (String.eqb p "b/tsconfig.json"))
           Scenario.packages 0 Scenario.packages ∅
  = mkSync (Throws StorageFailure)
           {["a/tsconfig.json" := Json (makeTsConfig (Some [Scenario.ref "../b"]) [])]}
           ["a/tsconfig.json"].
Proof. vm_compute. reflexivity. Qed.

Lemma addition_keeps_own_companion_witness :
  final (Demo.addition 1 Target.REGULAR Scenario.fooCaret2
           [Scenario.a; Demo.workspace "b" [Demo.fooAt "^2.0.0"] [Demo.typesFooAt "^1.5"]])
  = [Scenario.a; Demo.workspace "b" [Demo.fooAt "^2.0.0"] [Demo.typesFooAt "^1.5"]].
Proof.
  refine (proj1 (addition_keeps_own_companion
                   Demo.hasDefinitelyTyped Demo.parseRange Demo.validRange Demo.coerce
                   Demo.resolver 1 Target.REGULAR Scenario.fooCaret2
                   [Scenario.a;
                    Demo.workspace "b" [Demo.fooAt "^2.0.0"] [Demo.typesFooAt "^1.5"]]
                   (Demo.workspace "b" [Demo.fooAt "^2.0.0"] [Demo.typesFooAt "^1.5"])
                   _ _ _ _ _)).
  - reflexivity.
  - intros type k e H. destruct type; cbn in H.
    + apply lookup_insert_Some in H as [[<- <-]|[_ H]]; [done|].
      by rewrite lookup_empty in H.
    + apply lookup_insert_Some in H as [[<- <-]|[_ H]]; [done|].
      by rewrite lookup_empty in H.
    + by rewrite lookup_empty in H.
    + by rewrite lookup_empty in H.
  - vm_compute. reflexivity.
  - exists Manifest.DevDependencies, (makeDescriptor Demo.typesFoo "^1.5").
    vm_compute. reflexivity.
  - constructor; [right|constructor].
    intros (type & e & H). destruct type; vm_compute in H; discriminate.
Defined.
